(** * Zero-shot classification notebooks: the dataset loader and the
      [ZeroShotClassifier] helper, embedded in Rocq.

    Sources: the two notebooks under [zero-shot-classification-2022/notebooks]
    ([SentenceTransformers-ZeroShot-Baseline] and [TSDAE-ZeroShot]); the class
    [ZeroShotClassifier] is the same text in both, [read_dataset] lives in the
    first one.

    Modelling conventions.
    - A Python [str] is a [string]; a character is a code point below 256.
    - A Python exception is a constructor of [PyError]; a call that may raise
      returns a [result].
    - A similarity score is a finite Python float.  Finite floats are
      rationals and Python compares them exactly, so a score is a [Q] and
      [<] on floats is [float_lt].  NaN scores are outside the model.
    - The sentence encoder ([SentenceTransformer.encode]) and the cosine
      similarity ([util.pytorch_cos_sim]) belong to third-party libraries;
      they are parameters of the development.  An embedding matrix is the
      list of its rows; the empty array the encoder returns for no
      sentence is not such a matrix, and the results stated for [predict]
      are for non-empty input texts and some label embedding. *)

From Stdlib Require Import List String Ascii Bool Arith Lia.
From Stdlib Require Import QArith Permutation Sorted.
Import ListNotations.

Local Close Scope Q_scope.
Local Open Scope nat_scope.
Local Open Scope string_scope.
Local Open Scope list_scope.

(* ================================================================= *)
(** ** Python results *)

Inductive PyError : Type :=
| NameError
| AttributeError
| TypeError
| ValueError
| IndexError
| RuntimeError
| FileNotFoundError.

Inductive result (A : Type) : Type :=
| Ok (a : A)
| Raise (e : PyError).

Arguments Ok {A} a.
Arguments Raise {A} e.

Definition is_ok {A} (r : result A) : bool :=
  match r with Ok _ => true | Raise _ => false end.

Definition rbind {A B} (r : result A) (k : A -> result B) : result B :=
  match r with
  | Ok a => k a
  | Raise e => Raise e
  end.

Notation "'try' x <== r ; k" := (rbind r (fun x => k))
  (at level 10, x name, r at level 100, k at level 200).

(* ================================================================= *)
(** ** The [str] methods used by [read_dataset] *)

Definition TAB : ascii := ascii_of_nat 9.
Definition LF : ascii := ascii_of_nat 10.

(** [str.isspace] on one character: the Unicode white space below 256. *)
Definition isspace (c : ascii) : bool :=
  let n := nat_of_ascii c in
  (((9 <=? n) && (n <=? 13)) || ((28 <=? n) && (n <=? 32))
   || (n =? 133) || (n =? 160))%nat.

Fixpoint lstrip (s : string) : string :=
  match s with
  | EmptyString => EmptyString
  | String c r => if isspace c then lstrip r else s
  end.

Fixpoint rstrip (s : string) : string :=
  match s with
  | EmptyString => EmptyString
  | String c r =>
      match rstrip r with
      | EmptyString => if isspace c then EmptyString else String c EmptyString
      | r' => String c r'
      end
  end.

(** [s.strip()] *)
Definition strip (s : string) : string := rstrip (lstrip s).

(** [s.split(sep)] for a one-character separator. *)
Fixpoint split (sep : ascii) (s : string) : list string :=
  match s with
  | EmptyString => [EmptyString]
  | String c r =>
      if Ascii.eqb c sep then EmptyString :: split sep r
      else match split sep r with
           | [] => [String c EmptyString]
           | field :: fields => String c field :: fields
           end
  end.

(** [list(f)] for a text file [f]: the lines of the file, each one with its
    terminating newline (the last line may lack it). *)
Fixpoint readlines (s : string) : list string :=
  match s with
  | EmptyString => []
  | String c r =>
      if Ascii.eqb c LF then String c EmptyString :: readlines r
      else match readlines r with
           | [] => [String c EmptyString]
           | line :: lines => String c line :: lines
           end
  end.

(* ================================================================= *)
(** ** [read_dataset] *)

(** A file system: the text behind a path, if the file exists. *)
Definition FileSystem : Type := string -> option string.

(** [open(path)] in text mode: the text of the file as Python decodes it,
    every line ending translated to a newline character. *)
Definition open (fs : FileSystem) (path : string) : result string :=
  match fs path with
  | Some contents => Ok contents
  | None => Raise FileNotFoundError
  end.

(** A dataset item is the dict [{"id": id, "text": text, "label": label}],
    kept as an association list in insertion order. *)
Definition Item : Type := list (string * string).

Definition make_item (id text label : string) : Item :=
  [("id", id); ("text", text); ("label", label)].

(** The body of [for line in list(f)[1:]], with the accumulator [dataset]. *)
Fixpoint read_lines (lines : list string) (dataset : list Item)
  : result (list Item) :=
  match lines with
  | [] => Ok dataset
  | line :: lines' =>
      match split TAB (strip line) with
      | [id; text; label] =>
          read_lines lines' (dataset ++ [make_item id text label])
      | _ => Raise ValueError
      end
  end.

Definition read_dataset (fs : FileSystem) (path : string)
  : result (list Item) :=
  try f <== open fs path;
  read_lines (tl (readlines f)) [].

(** The line is well formed when, stripped, it splits on tab into exactly
    three fields. *)
Definition three_fields (line : string) : bool :=
  Nat.eqb (List.length (split TAB (strip line))) 3.

(** The item [read_dataset] builds from a well-formed line. *)
Definition item_of_line (line : string) : Item :=
  match split TAB (strip line) with
  | [id; text; label] => make_item id text label
  | _ => []
  end.

(* ================================================================= *)
(** ** [sorted] with a float key *)

(** [x < y] on two finite floats. *)
Definition float_lt (x y : Q) : bool :=
  match Qcompare x y with
  | Lt => true
  | _ => false
  end.

Section PySorted.
Context {A : Type}.
Variable key : A -> Q.
Variable reverse : bool.

(** [overtakes y x]: [y] stands after [x] in the input and must still be
    placed before [x] in the output.  The sort is stable, also with
    [reverse=True]: only a strictly better key overtakes. *)
Definition overtakes (y x : A) : bool :=
  if reverse then float_lt (key x) (key y) else float_lt (key y) (key x).

(** [l] is sorted and every element of it stood after [x] in the input. *)
Fixpoint insert_stable (x : A) (l : list A) : list A :=
  match l with
  | [] => [x]
  | y :: l' =>
      if overtakes y x then y :: insert_stable x l' else x :: l
  end.

(** [sorted(l, key=key, reverse=reverse)].  Python sorts with Timsort; on
    keys that [<] orders totally every stable sort returns the same list,
    and this one is the stable insertion sort. *)
Definition sorted (l : list A) : list A :=
  fold_right insert_stable [] l.

End PySorted.

(* ================================================================= *)
(** ** [ZeroShotClassifier] *)

(** What [predict] returns: the list of labels, or the pair of the labels
    and the ranked scores of every row. *)
Inductive PredictOutput : Type :=
| Labels (predicted_labels : list string)
| LabelsAndScores (predicted_labels : list string)
                  (predicted_scores : list (list (string * Q))).

Definition output_labels (o : PredictOutput) : list string :=
  match o with
  | Labels l => l
  | LabelsAndScores l _ => l
  end.

Definition output_scores_of (o : PredictOutput)
  : option (list (list (string * Q))) :=
  match o with
  | Labels _ => None
  | LabelsAndScores _ s => Some s
  end.

(** The two library functions the class calls, as an interface:
    - [Model] is a loaded [SentenceTransformer], [Embedding] one row of an
      embedding matrix;
    - [sentence_embedding m s] is the row [m.encode] gives to sentence [s];
      [m.encode] of a list of sentences is a matrix with one row per
      sentence, kept as the list of its rows;
    - [cos_sim a b] is the cosine similarity of two rows. *)
Class SentenceTransformers : Type := {
  Model : Type;
  Embedding : Type;
  sentence_embedding : Model -> string -> Embedding;
  cos_sim : Embedding -> Embedding -> Q
}.

Section ZeroShot.
Context {ST : SentenceTransformers}.

Record ZeroShotClassifier : Type := mkZeroShotClassifier {
  model : option Model;
  labels : list string;
  label_embeddings : option (list Embedding);
  threshold : option Q;
  null_label : string
}.

(** One call of [encode]: the model and the argument. *)
Definition EncodeCall : Type := (Model * option (list string))%type.

(** The notebook while a method runs: the global name [model], the object
    [self], and the calls of [encode] made so far. *)
Record Notebook : Type := mkNotebook {
  global_model : option Model;
  self : ZeroShotClassifier;
  encode_log : list EncodeCall
}.

(** A method body: it may raise, and what it wrote before stays written. *)
Definition Method (A : Type) : Type := Notebook -> result A * Notebook.

Definition ret {A} (a : A) : Method A := fun nb => (Ok a, nb).

Definition raise {A} (e : PyError) : Method A := fun nb => (Raise e, nb).

Definition bind {A B} (m : Method A) (k : A -> Method B) : Method B :=
  fun nb =>
    match m nb with
    | (Ok a, nb') => k a nb'
    | (Raise e, nb') => (Raise e, nb')
    end.

Definition lift {A} (r : result A) : Method A := fun nb => (r, nb).

Definition get_self : Method ZeroShotClassifier :=
  fun nb => (Ok (self nb), nb).

Definition set_self (c : ZeroShotClassifier) : Method unit :=
  fun nb => (Ok tt, mkNotebook (global_model nb) c (encode_log nb)).

(** Reading the global name [model]. *)
Definition get_global_model : Method Model :=
  fun nb =>
    match global_model nb with
    | Some m => (Ok m, nb)
    | None => (Raise NameError, nb)
    end.

(** [m.encode(sentences)]: one row per sentence.  The call is recorded.
    For an empty list of sentences the library returns an empty array of
    one dimension, not a matrix without rows; a list of rows does not tell
    the two apart, so what [predict] does with the encoding of no sentence
    is given by no statement below: where a result of [predict] is stated,
    input texts are a non-empty list and there is some label embedding. *)
Definition encode (m : Model) (sentences : option (list string))
  : Method (list Embedding) :=
  fun nb =>
    let nb' := mkNotebook (global_model nb) (self nb)
                          (encode_log nb ++ [(m, sentences)]) in
    match sentences with
    | Some l => (Ok (map (sentence_embedding m) l), nb')
    | None => (Raise TypeError, nb')
    end.

(** [util.pytorch_cos_sim(a, b)]: the matrix of [cos_sim a[i] b[j]];
    [b = None] is no tensor.  This is the function on matrices, [a] with
    any number of rows and [b] with at least one; see [encode] for the
    empty array of the encoder. *)
Definition pytorch_cos_sim (a : list Embedding) (b : option (list Embedding))
  : result (list (list Q)) :=
  match b with
  | Some b' => Ok (map (fun x => map (cos_sim x) b') a)
  | None => Raise RuntimeError
  end.

Definition __init__ (model : option Model) (threshold : option Q)
           (null_label : string) : ZeroShotClassifier :=
  {| model := model;
     labels := [];
     label_embeddings := None;
     threshold := threshold;
     null_label := null_label |}.

Definition set_labels (l : list string) (c : ZeroShotClassifier)
  : ZeroShotClassifier :=
  mkZeroShotClassifier (model c) l (label_embeddings c)
                       (threshold c) (null_label c).

Definition set_label_embeddings (e : option (list Embedding))
           (c : ZeroShotClassifier) : ZeroShotClassifier :=
  mkZeroShotClassifier (model c) (labels c) e (threshold c) (null_label c).

Definition train (labels descriptions : list string) : Method unit :=
  bind get_self (fun c =>
  bind (set_self (set_labels labels c)) (fun _ =>
  bind get_global_model (fun m =>
  bind (encode m (Some descriptions)) (fun e =>
  bind get_self (fun c' =>
  set_self (set_label_embeddings (Some e) c')))))).

(** The [for i in range(...)] loop of [predict]; [range] is what is left of
    the range, the two accumulators are the lists the loop appends to. *)
Fixpoint predict_rows (c : ZeroShotClassifier) (S : list (list Q))
         (range : list nat) (predicted_labels : list string)
         (predicted_scores : list (list (string * Q)))
  : result (list string * list (list (string * Q))) :=
  match range with
  | [] => Ok (predicted_labels, predicted_scores)
  | i :: range' =>
      let label_scores := nth i S [] in
      let scored := sorted snd true (combine (labels c) label_scores) in
      match scored with
      | [] => Raise IndexError
      | (pred, score) :: _ =>
          let pred :=
            match threshold c with
            | Some t => if float_lt score t then null_label c else pred
            | None => pred
            end in
          predict_rows c S range' (predicted_labels ++ [pred])
                       (predicted_scores ++ [scored])
      end
  end.

Definition predict (input_texts : option (list string))
           (input_embeddings : option (list Embedding))
           (output_scores : bool) : Method PredictOutput :=
  bind get_self (fun c =>
  bind (match input_embeddings with
        | Some e => ret e
        | None =>
            match model c with
            | Some m => encode m input_texts
            | None => raise AttributeError
            end
        end) (fun input_embeddings =>
  bind (lift (pytorch_cos_sim input_embeddings (label_embeddings c)))
       (fun S =>
  bind (lift (predict_rows c S (seq 0 (List.length input_embeddings)) [] []))
       (fun out =>
  ret (if output_scores
       then LabelsAndScores (fst out) (snd out)
       else Labels (fst out)))))).

(** *** Words of the claims *)

(** What a method returns, and the notebook it leaves. *)
Definition returns {A} (m : Method A) (nb : Notebook) : result A :=
  fst (m nb).

Definition leaves {A} (m : Method A) (nb : Notebook) : Notebook :=
  snd (m nb).

(** The ranked list of one input row [x]. *)
Definition ranking (c : ZeroShotClassifier) (embs : list Embedding)
           (x : Embedding) : list (string * Q) :=
  sorted snd true (combine (labels c) (map (cos_sim x) embs)).

(** The threshold fires on a top score. *)
Definition fires (c : ZeroShotClassifier) (score : Q) : bool :=
  match threshold c with
  | Some t => float_lt score t
  | None => false
  end.

(** The label the loop appends for a ranked list that has a head. *)
Definition emitted (c : ZeroShotClassifier) (scored : list (string * Q))
  : string :=
  match scored with
  | (pred, score) :: _ => if fires c score then null_label c else pred
  | [] => null_label c
  end.

(** The rows [predict] compares with the label embeddings: the argument
    [input_embeddings], or else [self.model.encode(input_texts)]. *)
Definition input_rows (c : ZeroShotClassifier)
           (input_texts : option (list string))
           (input_embeddings : option (list Embedding))
  : option (list Embedding) :=
  match input_embeddings, model c, input_texts with
  | Some e, _, _ => Some e
  | None, Some m, Some t => Some (map (sentence_embedding m) t)
  | None, _, _ => None
  end.

(** The calls of [encode] that [predict] makes. *)
Definition predict_calls (c : ZeroShotClassifier)
           (input_texts : option (list string))
           (input_embeddings : option (list Embedding)) : list EncodeCall :=
  match input_embeddings, model c with
  | None, Some m => [(m, input_texts)]
  | _, _ => []
  end.

(** [l] at position [k] of the trained labels has the best score for [x],
    and no earlier label has a score as good. *)
Definition first_best (c : ZeroShotClassifier) (embs : list Embedding)
           (x : Embedding) (k : nat) (l : string) (s : Q) : Prop :=
  (exists e, nth_error (labels c) k = Some l /\
             nth_error embs k = Some e /\ s = cos_sim x e) /\
  (forall j l' e', nth_error (labels c) j = Some l' ->
                   nth_error embs j = Some e' ->
                   (cos_sim x e' <= s)%Q) /\
  (forall j l' e', j < k ->
                   nth_error (labels c) j = Some l' ->
                   nth_error embs j = Some e' ->
                   (cos_sim x e' < s)%Q).

End ZeroShot.

(* ================================================================= *)
(** ** A small instance, for the examples *)

(** Rows are unit vectors of the plane, given by their two coordinates; on
    unit vectors the cosine similarity is the dot product. *)
Definition plane_cos_sim (a b : Q * Q) : Q :=
  (fst a * fst b + snd a * snd b)%Q.

(** A model with a three-word vocabulary: sentences about the ground go
    east, sentences about water go north, the rest goes west. *)
Definition plane_embedding (m : unit) (s : string) : Q * Q :=
  if String.eqb s "earthquake" then (1, 0)%Q
  else if String.eqb s "floods" then (0, 1)%Q
  else (-1, 0)%Q.

Definition plane : SentenceTransformers := {|
  Model := unit;
  Embedding := (Q * Q)%type;
  sentence_embedding := plane_embedding;
  cos_sim := plane_cos_sim
|}.

Definition fresh_notebook {ST : SentenceTransformers} (g : option Model)
           (c : ZeroShotClassifier) : Notebook :=
  mkNotebook g c [].

(** The one model of the instance, and rows as the instance sees them. *)
Definition the_model : @Model plane := tt.

Definition row (x y : Q) : @Embedding plane := (x, y).

(** The classifier of the last cells of the first notebook: threshold 0.3,
    null label OTHER, three labels described by one word each. *)
Definition disasters : Notebook (ST := plane) :=
  leaves (train ["EARTHQUAKE"; "WILDFIRE"; "FLOODS"]
                ["earthquake"; "wildfire"; "floods"])
         (fresh_notebook (Some the_model)
            (__init__ (Some the_model) (Some 0.3%Q) "OTHER")).

(** The same labels without a threshold. *)
Definition disasters_no_threshold : Notebook (ST := plane) :=
  leaves (train ["EARTHQUAKE"; "WILDFIRE"; "FLOODS"]
                ["earthquake"; "wildfire"; "floods"])
         (fresh_notebook (Some the_model)
            (__init__ (Some the_model) None "OTHER")).

(** A label set that has OTHER among its labels, as the label set of the
    shared task has, with the threshold and the null label of above. *)
Definition events : Notebook (ST := plane) :=
  leaves (train ["EARTHQUAKE"; "OTHER"] ["earthquake"; "other"])
         (fresh_notebook (Some the_model)
            (__init__ (Some the_model) (Some 0.3%Q) "OTHER")).


(** Files: lines of tab-separated fields, every line ended by a newline. *)
Definition tsv_line (fields : list string) : string :=
  String.append (String.concat (String TAB EmptyString) fields)
                (String LF EmptyString).

Definition tsv (rows : list (list string)) : string :=
  String.concat EmptyString (map tsv_line rows).

Definition one_file (contents : string) : FileSystem :=
  fun path => if String.eqb path "test.tsv" then Some contents else None.

Definition good_file : string :=
  tsv [["id"; "text"; "label"];
       ["1"; "Flood in the valley"; "NATURAL_DISASTER"];
       ["2"; "Talks resumed"; "DIPLO"]].

(** A record with white space around its fields and a fourth, blank
    field. *)
Definition padded_line : string :=
  tsv_line [" 7"; " a b "; "DIPLO "; " "].

Definition padded_file : string :=
  String.append (tsv_line ["id"; "text"; "label"]) padded_line.

(** The second record has no label. *)
Definition bad_file : string :=
  tsv [["id"; "text"; "label"];
       ["1"; "Flood in the valley"; "NATURAL_DISASTER"];
       ["2"; "Talks resumed"]].

(* ================================================================= *)
(** ** The cells between [read_dataset] and the classifier *)

(** A Python dict from [str] to [str], in insertion order; the dataset
    items are such dicts. *)
Definition Dict : Type := list (string * string).

(** [d[k]]; [None] stands for [KeyError]. *)
Fixpoint getitem (d : Dict) (k : string) : option string :=
  match d with
  | [] => None
  | (k', v) :: d' => if String.eqb k' k then Some v else getitem d' k
  end.

(** [[f(x) for x in l]] when [f] may raise: the first failure ends it. *)
Fixpoint comprehension {A B : Type} (f : A -> option B) (l : list A)
  : option (list B) :=
  match l with
  | [] => Some []
  | x :: l' =>
      match f x with
      | None => None
      | Some y =>
          match comprehension f l' with
          | None => None
          | Some ys => Some (y :: ys)
          end
      end
  end.

(** [texts = [x["text"] for x in dataset]] *)
Definition texts (dataset : list Item) : option (list string) :=
  comprehension (fun x => getitem x "text") dataset.

(** [y_true = [x["label"] for x in dataset]] *)
Definition y_true (dataset : list Item) : option (list string) :=
  comprehension (fun x => getitem x "label") dataset.

(** [sorted(l)] on a list of [str]: the stable insertion sort by [<]. *)
Fixpoint insert_str (x : string) (l : list string) : list string :=
  match l with
  | [] => [x]
  | y :: l' => if String.ltb y x then y :: insert_str x l' else x :: l
  end.

Definition sorted_str (l : list string) : list string :=
  fold_right insert_str [] l.

(** [label_names = sorted(label_to_description)]: the sorted keys. *)
Definition label_names (label_to_description : Dict) : list string :=
  sorted_str (map fst label_to_description).

(** [label_descriptions = [label_to_description[l] for l in label_names]] *)
Definition label_descriptions (label_to_description : Dict)
  : option (list string) :=
  comprehension (getitem label_to_description)
                (label_names label_to_description).

Definition zero_shot_labels : list string :=
  ["ORG_CRIME"; "NATURAL_DISASTER"; "MAN_MADE_DISASTER"; "DIPLO"; "ATTRIB"].

(** [x in l] on a list of [str]. *)
Definition str_in (x : string) (l : list string) : bool :=
  existsb (String.eqb x) l.

(** [[(text, label) for text, label in zip(texts, y_true)
      if label in zero_shot_labels]] *)
Definition zero_shot_pairs (texts y_true zero_shot_labels : list string)
  : list (string * string) :=
  filter (fun p => str_in (snd p) zero_shot_labels) (combine texts y_true).

(** [texts_zs, y_true_zs = zip( *pairs)]: [zip] of no argument yields
    nothing, and unpacking nothing into two names raises. *)
Definition zero_shot_subset (texts y_true zero_shot_labels : list string)
  : result (list string * list string) :=
  match zero_shot_pairs texts y_true zero_shot_labels with
  | [] => Raise ValueError
  | pairs => Ok (List.split pairs)
  end.

(** *** Words of the further properties *)

(** The character [c] occurs in [s]. *)
Fixpoint occurs (c : ascii) (s : string) : bool :=
  match s with
  | EmptyString => false
  | String c' r => Ascii.eqb c' c || occurs c r
  end.

(** The entries of a ranked list whose score equals [v]. *)
Definition with_score (v : Q) (l : list (string * Q)) : list (string * Q) :=
  filter (fun p => Qeq_bool (snd p) v) l.

(** Values for the examples. *)

(** What [read_dataset] returns on [good_file]. *)
Definition good_dataset : list Item :=
  [make_item "1" "Flood in the valley" "NATURAL_DISASTER";
   make_item "2" "Talks resumed" "DIPLO"].

(** A classifier trained on three labels and two descriptions. *)
Definition three_labels_two_descriptions : Notebook (ST := plane) :=
  leaves (train ["EARTHQUAKE"; "FLOODS"; "WILDFIRE"] ["earthquake"; "floods"])
         (fresh_notebook (Some the_model)
            (__init__ (Some the_model) None "OTHER")).

(* ================================================================= *)
(** * Facts *)

(** ** Comparing floats *)

Lemma float_lt_true (x y : Q) : float_lt x y = true <-> (x < y)%Q.
Proof.
  unfold float_lt. rewrite Qlt_alt.
  destruct (Qcompare x y); split; intro H; try reflexivity; discriminate H.
Qed.

Lemma float_lt_false (x y : Q) : float_lt x y = false <-> (y <= x)%Q.
Proof.
  rewrite <- not_true_iff_false, float_lt_true.
  split; [apply Qnot_lt_le | apply Qle_not_lt].
Qed.

(** ** [sorted] is a stable sort *)

Section SortedFacts.
Context {A : Type}.
Variable key : A -> Q.

Lemma insert_stable_perm (reverse : bool) (x : A) (l : list A) :
  Permutation (x :: l) (insert_stable key reverse x l).
Proof.
  induction l as [|y l IH]; simpl.
  - apply Permutation_refl.
  - destruct (overtakes key reverse y x).
    + eapply perm_trans; [apply perm_swap|]. now apply perm_skip.
    + apply Permutation_refl.
Qed.

Lemma sorted_perm (reverse : bool) (l : list A) :
  Permutation l (sorted key reverse l).
Proof.
  induction l as [|x l IH]; simpl.
  - apply perm_nil.
  - eapply perm_trans; [apply perm_skip, IH|]. apply insert_stable_perm.
Qed.

Lemma sorted_length (reverse : bool) (l : list A) :
  List.length (sorted key reverse l) = List.length l.
Proof. symmetry. apply Permutation_length, sorted_perm. Qed.

Lemma sorted_nil_inv (reverse : bool) (l : list A) :
  sorted key reverse l = [] -> l = [].
Proof.
  intro H. apply Permutation_nil. rewrite <- H.
  apply Permutation_sym, sorted_perm.
Qed.






(** With [reverse=True] the head of the output is the first element of
    the input among those with the greatest key. *)
Lemma sorted_reverse_head (l : list A) (p : A) (rest : list A) :
  sorted key true l = p :: rest ->
  exists k,
    nth_error l k = Some p /\
    (forall j q, nth_error l j = Some q -> (key q <= key p)%Q) /\
    (forall j q, j < k -> nth_error l j = Some q -> (key q < key p)%Q).
Proof.
  revert p rest. induction l as [|x l IH]; intros p rest; simpl.
  - discriminate.
  - destruct (sorted key true l) as [|y ys] eqn:E; simpl.
    + intro H. injection H as <- _.
      apply sorted_nil_inv in E. subst l.
      exists 0. split; [reflexivity|]. split.
      * intros [|[|j]] q Hq; simpl in Hq; try discriminate.
        injection Hq as <-. apply Qle_refl.
      * intros j q Hj. lia.
    + destruct (IH y ys eq_refl) as (k & Hk & Hmax & Hfirst).
      unfold overtakes. destruct (float_lt (key x) (key y)) eqn:L; intro H.
      * injection H as <- _. apply float_lt_true in L.
        exists (S k). split; [exact Hk|]. split.
        -- intros [|j] q Hq; simpl in Hq.
           ++ injection Hq as <-. now apply Qlt_le_weak.
           ++ eapply Hmax; eassumption.
        -- intros [|j] q Hj Hq; simpl in Hq.
           ++ injection Hq as <-. exact L.
           ++ apply (Hfirst j); [lia | exact Hq].
      * injection H as <- _. apply float_lt_false in L.
        exists 0. split; [reflexivity|]. split.
        -- intros [|j] q Hq; simpl in Hq.
           ++ injection Hq as <-. apply Qle_refl.
           ++ eapply Qle_trans; [eapply Hmax; eassumption | exact L].
        -- intros j q Hj. lia.
Qed.
End SortedFacts.

(** ** Lists *)

Lemma nth_error_combine {A B : Type} (l1 : list A) (l2 : list B) (k : nat)
      (a : A) (b : B) :
  nth_error (combine l1 l2) k = Some (a, b) <->
  nth_error l1 k = Some a /\ nth_error l2 k = Some b.
Proof.
  revert l2 k. induction l1 as [|x l1 IH]; intros [|y l2] [|k]; simpl;
    try (split; [discriminate | intros [H1 H2]; discriminate]).
  - split; [intro H; injection H as -> ->; now split|].
    intros [H1 H2]. now injection H1 as ->; injection H2 as ->.
  - apply IH.
Qed.

Lemma combine_nonempty {A B : Type} (l1 : list A) (l2 : list B) :
  l1 <> [] -> l2 <> [] -> combine l1 l2 <> [].
Proof. destruct l1, l2; simpl; congruence. Qed.

Lemma map_nth_range {A B : Type} (f : A -> B) (d : A) (l : list A) :
  map (fun i => f (nth i l d)) (seq 0 (List.length l)) = map f l.
Proof.
  induction l as [|x l IH]; simpl; [reflexivity|].
  f_equal. rewrite <- seq_shift, map_map. exact IH.
Qed.

(** ** The loop and the body of [predict] *)

Section ZeroShotFacts.
Context {ST : SentenceTransformers}.

Lemma predict_rows_app (c : ZeroShotClassifier) (S : list (list Q))
      (range : list nat) :
  (forall i, In i range -> combine (labels c) (nth i S []) <> []) ->
  forall predicted_labels predicted_scores,
    predict_rows c S range predicted_labels predicted_scores =
    Ok (predicted_labels ++
          map (fun i => emitted c (sorted snd true
                                     (combine (labels c) (nth i S []))))
              range,
        predicted_scores ++
          map (fun i => sorted snd true (combine (labels c) (nth i S [])))
              range).
Proof.
  induction range as [|i range IH]; intros Hne pl ps; simpl.
  - now rewrite !app_nil_r.
  - destruct (sorted snd true (combine (labels c) (nth i S []))) as [|[pred score] tl_]
      eqn:E.
    + apply sorted_nil_inv in E. exfalso. apply (Hne i); [now left | exact E].
    + rewrite IH by (intros j Hj; apply Hne; now right).
      rewrite <- !app_assoc. simpl. unfold fires.
      destruct (threshold c); reflexivity.
Qed.


Lemma predict_returns (nb : Notebook) input_texts input_embeddings
      (output_scores : bool) (rows embs : list Embedding) :
  input_rows (self nb) input_texts input_embeddings = Some rows ->
  label_embeddings (self nb) = Some embs ->
  (rows <> [] -> labels (self nb) <> [] /\ embs <> []) ->
  returns (predict input_texts input_embeddings output_scores) nb =
  Ok (if output_scores
      then LabelsAndScores
             (map (fun x => emitted (self nb) (ranking (self nb) embs x)) rows)
             (map (ranking (self nb) embs) rows)
      else Labels
             (map (fun x => emitted (self nb) (ranking (self nb) embs x)) rows)).
Proof.
  intros Hin Hemb Hne.
  assert (Hloop :
    predict_rows (self nb) (map (fun x => map (cos_sim x) embs) rows)
                 (seq 0 (List.length rows)) [] [] =
    Ok (map (fun x => emitted (self nb) (ranking (self nb) embs x)) rows,
        map (ranking (self nb) embs) rows)).
  { rewrite predict_rows_app.
    - simpl.
      rewrite <- (length_map (fun x => map (cos_sim x) embs) rows).
      rewrite (map_nth_range
                 (fun r => emitted (self nb)
                             (sorted snd true (combine (labels (self nb)) r)))).
      rewrite (map_nth_range
                 (fun r => sorted snd true (combine (labels (self nb)) r))).
      now rewrite !map_map.
    - intros i Hi. apply in_seq in Hi.
      assert (Hr : rows <> []) by (destruct rows; simpl in Hi; [lia | congruence]).
      destruct (Hne Hr) as [Hl He].
      assert (Hin' : In (nth i (map (fun x => map (cos_sim x) embs) rows) [])
                        (map (fun x => map (cos_sim x) embs) rows)).
      { apply nth_In. rewrite length_map. lia. }
      apply in_map_iff in Hin'. destruct Hin' as (x & <- & _).
      apply combine_nonempty; [exact Hl|].
      destruct embs; simpl; congruence. }
  unfold returns, predict, bind, get_self, lift, ret, input_rows in *.
  destruct input_embeddings as [e|].
  - injection Hin as ->. simpl. rewrite Hemb. simpl. rewrite Hloop.
    destruct output_scores; reflexivity.
  - destruct (model (self nb)) as [m|]; [|discriminate].
    destruct input_texts as [t|]; [|discriminate].
    injection Hin as <-. simpl. rewrite Hemb. simpl. rewrite Hloop.
    destruct output_scores; reflexivity.
Qed.

Lemma ranking_nonempty (c : ZeroShotClassifier) (embs : list Embedding)
      (x : Embedding) :
  labels c <> [] -> embs <> [] -> ranking c embs x <> [].
Proof.
  intros Hl He H. apply sorted_nil_inv in H. revert H.
  apply combine_nonempty; [exact Hl|]. destruct embs; simpl; congruence.
Qed.

Lemma ranking_head (c : ZeroShotClassifier) (embs : list Embedding)
      (x : Embedding) (l : string) (s : Q) (rest : list (string * Q)) :
  ranking c embs x = (l, s) :: rest ->
  exists k, first_best c embs x k l s.
Proof.
  intro H. apply sorted_reverse_head in H.
  destruct H as (k & Hk & Hmax & Hfirst).
  exists k. unfold first_best.
  apply nth_error_combine in Hk. destruct Hk as [Hkl Hks].
  rewrite nth_error_map in Hks.
  destruct (nth_error embs k) as [e|] eqn:Ee; [|discriminate].
  injection Hks as <-.
  split; [exists e; now repeat split|]. split.
  - intros j l' e' Hl' He'.
    apply (Hmax j (l', cos_sim x e')). apply nth_error_combine.
    split; [exact Hl'|]. rewrite nth_error_map, He'. reflexivity.
  - intros j l' e' Hj Hl' He'.
    apply (Hfirst j (l', cos_sim x e') Hj). apply nth_error_combine.
    split; [exact Hl'|]. rewrite nth_error_map, He'. reflexivity.
Qed.

Lemma ranking_perm (c : ZeroShotClassifier) (embs : list Embedding)
      (x : Embedding) :
  Permutation (combine (labels c) (map (cos_sim x) embs))
              (ranking c embs x).
Proof. apply sorted_perm. Qed.

Lemma ranking_labels (c : ZeroShotClassifier) (embs : list Embedding)
      (x : Embedding) (l : string) (s : Q) :
  In (l, s) (ranking c embs x) -> In l (labels c).
Proof.
  intro H. apply (Permutation_in _ (Permutation_sym (ranking_perm c embs x))) in H.
  now apply in_combine_l in H.
Qed.

End ZeroShotFacts.


Section ZeroShotRows.
Context {ST : SentenceTransformers}.

(** What [predict] returns, row by row: the ranked list of the row has a
    head [(l, s)], [l] is the first trained label with the best score [s],
    and the label of the row is the null label if the threshold fires on
    [s], else [l]. *)
Lemma predict_rowwise (nb : Notebook) input_texts input_embeddings
      (output_scores : bool) (rows embs : list Embedding) :
  input_rows (self nb) input_texts input_embeddings = Some rows ->
  label_embeddings (self nb) = Some embs ->
  labels (self nb) <> [] -> embs <> [] ->
  exists out,
    returns (predict input_texts input_embeddings output_scores) nb = Ok out /\
    List.length (output_labels out) = List.length rows /\
    output_scores_of out =
      (if output_scores then Some (map (ranking (self nb) embs) rows)
       else None) /\
    forall i x, nth_error rows i = Some x ->
      exists k l s rest,
        ranking (self nb) embs x = (l, s) :: rest /\
        first_best (self nb) embs x k l s /\
        nth_error (output_labels out) i =
          Some (if fires (self nb) s then null_label (self nb) else l).
Proof.
  intros Hin Hemb Hl He.
  pose proof (predict_returns nb input_texts input_embeddings output_scores
                rows embs Hin Hemb (fun _ => conj Hl He)) as Hret.
  eexists. split; [exact Hret|].
  assert (Hlab : output_labels
            (if output_scores
             then LabelsAndScores
                    (map (fun x => emitted (self nb) (ranking (self nb) embs x)) rows)
                    (map (ranking (self nb) embs) rows)
             else Labels
                    (map (fun x => emitted (self nb) (ranking (self nb) embs x)) rows))
          = map (fun x => emitted (self nb) (ranking (self nb) embs x)) rows)
    by (destruct output_scores; reflexivity).
  rewrite Hlab. split; [apply length_map|].
  split; [destruct output_scores; reflexivity|].
  intros i x Hx.
  destruct (ranking (self nb) embs x) as [|[l s] rest] eqn:E.
  - exfalso. revert E. now apply ranking_nonempty.
  - destruct (ranking_head _ _ _ _ _ _ E) as [k Hk].
    exists k, l, s, rest. split; [reflexivity|]. split; [exact Hk|].
    rewrite nth_error_map, Hx. simpl. rewrite E. reflexivity.
Qed.
End ZeroShotRows.

(* ================================================================= *)
(** * The claims about [ZeroShotClassifier] *)

Section ZeroShotClaims.
Context {ST : SentenceTransformers}.

(** C1.  A classifier holds the embeddings of a non-empty list of labels
    and descriptions and has no threshold.  Then [predict] returns one
    label per input row, and the label of a row is a trained label whose
    cosine similarity with the row is the greatest over all trained
    labels; among labels of equal similarity it is the one that comes
    first in the trained order.  Input texts, when they are what [predict]
    is given, are a non-empty list. *)
Theorem predict_without_threshold_first_best
        (nb : Notebook) input_texts input_embeddings (output_scores : bool)
        (rows embs : list Embedding) :
  input_rows (self nb) input_texts input_embeddings = Some rows ->
  (input_embeddings = None -> rows <> []) ->
  label_embeddings (self nb) = Some embs ->
  threshold (self nb) = None ->
  labels (self nb) <> [] -> embs <> [] ->
  exists out,
    returns (predict input_texts input_embeddings output_scores) nb = Ok out /\
    List.length (output_labels out) = List.length rows /\
    forall i x, nth_error rows i = Some x ->
      exists k l s,
        nth_error (output_labels out) i = Some l /\
        first_best (self nb) embs x k l s.
Proof.
  intros Hin _ Hemb Hthr Hl He.
  destruct (predict_rowwise nb input_texts input_embeddings output_scores
              rows embs Hin Hemb Hl He) as (out & Hret & Hlen & _ & Hrows).
  exists out. split; [exact Hret|]. split; [exact Hlen|].
  intros i x Hx. destruct (Hrows i x Hx) as (k & l & s & rest & _ & Hk & Hi).
  exists k, l, s. split; [|exact Hk].
  rewrite Hi. unfold fires. rewrite Hthr. reflexivity.
Qed.

(** C2, as amended.  With a threshold [t] and a non-empty trained label
    list, the label of a row is the null label whenever the best cosine
    similarity [s] of the row is strictly less than [t], and the first
    trained label with the best similarity otherwise.  So the null label is
    returned exactly when [s < t] or that best trained label is itself
    the null label; when the null label is not a trained label, exactly
    when [s < t].  Input texts, when they are what [predict] is
    given, are a non-empty list. *)
Theorem predict_with_threshold
        (nb : Notebook) input_texts input_embeddings (output_scores : bool)
        (rows embs : list Embedding) (t : Q) :
  input_rows (self nb) input_texts input_embeddings = Some rows ->
  (input_embeddings = None -> rows <> []) ->
  label_embeddings (self nb) = Some embs ->
  threshold (self nb) = Some t ->
  labels (self nb) <> [] -> embs <> [] ->
  exists out,
    returns (predict input_texts input_embeddings output_scores) nb = Ok out /\
    List.length (output_labels out) = List.length rows /\
    forall i x, nth_error rows i = Some x ->
      exists k l s pred,
        nth_error (output_labels out) i = Some pred /\
        first_best (self nb) embs x k l s /\
        ((s < t)%Q -> pred = null_label (self nb)) /\
        (~ (s < t)%Q -> pred = l) /\
        (pred = null_label (self nb) <->
         (s < t)%Q \/ l = null_label (self nb)) /\
        (~ In (null_label (self nb)) (labels (self nb)) ->
         (pred = null_label (self nb) <-> (s < t)%Q)).
Proof.
  intros Hin _ Hemb Hthr Hl He.
  destruct (predict_rowwise nb input_texts input_embeddings output_scores
              rows embs Hin Hemb Hl He) as (out & Hret & Hlen & _ & Hrows).
  exists out. split; [exact Hret|]. split; [exact Hlen|].
  intros i x Hx. destruct (Hrows i x Hx) as (k & l & s & rest & _ & Hk & Hi).
  exists k, l, s. eexists. split; [exact Hi|]. split; [exact Hk|].
  assert (Hlab : In l (labels (self nb))).
  { destruct Hk as [(e & Hnl & _) _]. eapply nth_error_In; exact Hnl. }
  unfold fires. rewrite Hthr.
  destruct (float_lt s t) eqn:F.
  - apply float_lt_true in F.
    repeat split; intros; try reflexivity; try contradiction; try (now left).
    exact F.
  - apply float_lt_false in F. apply Qle_not_lt in F.
    repeat split; intros; try reflexivity; try contradiction.
    + now right.
    + destruct H as [H|H]; [contradiction | exact H].
    + subst l. contradiction.
Qed.

(** C9.  Two classifiers differ in their thresholds [t <= t'] only.  On
    every input row, if the one with [t] returns the null label, so does
    the one with [t']; and when both return a label other than the null
    label, it is the same label.  Input texts, when they are what [predict]
    is given, are a non-empty list. *)
Theorem predict_threshold_monotone
        (m : option Model) (ls : list string) (embs : list Embedding)
        (n : string) (t t' : Q) (g g' : option Model)
        (log log' : list EncodeCall)
        input_texts input_embeddings (output_scores : bool)
        (rows : list Embedding) :
  let c := mkZeroShotClassifier m ls (Some embs) (Some t) n in
  let c' := mkZeroShotClassifier m ls (Some embs) (Some t') n in
  (t <= t')%Q ->
  ls <> [] -> embs <> [] ->
  input_rows c input_texts input_embeddings = Some rows ->
  (input_embeddings = None -> rows <> []) ->
  exists out out',
    returns (predict input_texts input_embeddings output_scores)
            (mkNotebook g c log) = Ok out /\
    returns (predict input_texts input_embeddings output_scores)
            (mkNotebook g' c' log') = Ok out' /\
    List.length (output_labels out) = List.length rows /\
    List.length (output_labels out') = List.length rows /\
    forall i l l',
      nth_error (output_labels out) i = Some l ->
      nth_error (output_labels out') i = Some l' ->
      (l = n -> l' = n) /\ (l <> n -> l' <> n -> l = l').
Proof.
  intros c c' Htt Hl He Hin _.
  destruct (predict_rowwise (mkNotebook g c log) input_texts input_embeddings
              output_scores rows embs Hin eq_refl Hl He)
    as (out & Hret & Hlen & _ & Hrows).
  destruct (predict_rowwise (mkNotebook g' c' log') input_texts
              input_embeddings output_scores rows embs Hin eq_refl Hl He)
    as (out' & Hret' & Hlen' & _ & Hrows').
  exists out, out'. repeat (split; [assumption|]).
  intros i l l' Hi Hi'.
  destruct (nth_error rows i) as [x|] eqn:Hx.
  2:{ apply nth_error_None in Hx.
      assert (i < List.length (output_labels out))
        by (apply nth_error_Some; congruence). lia. }
  destruct (Hrows i x Hx) as (k & l0 & s & rest & Hr & _ & Hout).
  destruct (Hrows' i x Hx) as (k' & l0' & s' & rest' & Hr' & _ & Hout').
  simpl in Hr, Hr', Hout, Hout'.
  change (ranking c' embs x) with (ranking c embs x) in Hr'.
  rewrite Hr in Hr'. injection Hr' as <- <- <-.
  rewrite Hi in Hout. rewrite Hi' in Hout'.
  injection Hout as ->. injection Hout' as ->.
  unfold fires; simpl.
  destruct (float_lt s t) eqn:F; destruct (float_lt s t') eqn:F'.
  - split; [reflexivity | intros H; now contradiction H].
  - exfalso. apply float_lt_true in F. apply float_lt_false in F'.
    apply (Qlt_irrefl s). eapply Qlt_le_trans; [exact F|].
    eapply Qle_trans; eassumption.
  - split; [reflexivity | intros _ H; now contradiction H].
  - split; [tauto | reflexivity].
Qed.



(** C5, as amended.  With [output_scores=True], the ranked list of a row
    is the ranking of the trained labels as it was sorted, whether the
    threshold fires or not: its head is the first trained label with
    the best similarity [s], and every label in it is a trained label, so
    the null label appears in it only when it is a trained label itself.
    When the threshold fires ([s < t]) the label of the row is the null
    label, which differs from the head of the ranked list of that row
    whenever that head is not the null label.  Input texts, when they are what
    [predict] is given, are a non-empty list. *)
Theorem predict_ranked_list_keeps_trained_labels
        (nb : Notebook) input_texts input_embeddings
        (rows embs : list Embedding) (t : Q) :
  input_rows (self nb) input_texts input_embeddings = Some rows ->
  (input_embeddings = None -> rows <> []) ->
  label_embeddings (self nb) = Some embs ->
  threshold (self nb) = Some t ->
  labels (self nb) <> [] -> embs <> [] ->
  exists preds scores,
    returns (predict input_texts input_embeddings true) nb =
      Ok (LabelsAndScores preds scores) /\
    forall i x, nth_error rows i = Some x ->
      exists k l s rest,
        nth_error scores i = Some ((l, s) :: rest) /\
        (l, s) :: rest =
          sorted snd true
                 (combine (labels (self nb)) (map (cos_sim x) embs)) /\
        first_best (self nb) embs x k l s /\
        (forall l' s', In (l', s') ((l, s) :: rest) ->
                       In l' (labels (self nb))) /\
        ((s < t)%Q ->
         nth_error preds i = Some (null_label (self nb)) /\
         (l <> null_label (self nb) -> nth_error preds i <> Some l)).
Proof.
  intros Hin _ Hemb Hthr Hl He.
  destruct (predict_rowwise nb input_texts input_embeddings true
              rows embs Hin Hemb Hl He) as (out & Hret & _ & Hsc & Hrows).
  destruct out as [preds | preds scores]; [discriminate Hsc|].
  simpl in Hsc. injection Hsc as ->.
  exists preds. eexists. split; [exact Hret|].
  intros i x Hx. destruct (Hrows i x Hx) as (k & l & s & rest & Hr & Hk & Hi).
  exists k, l, s, rest.
  split; [rewrite nth_error_map, Hx; simpl; now rewrite Hr|].
  split; [now rewrite <- Hr|]. split; [exact Hk|]. split.
  - intros l' s' H'. rewrite <- Hr in H'. eapply ranking_labels; exact H'.
  - intro Hs. apply float_lt_true in Hs. simpl in Hi.
    unfold fires in Hi. rewrite Hthr, Hs in Hi.
    split; [exact Hi|]. intros Hne H. rewrite Hi in H. congruence.
Qed.


(** C8.  The descriptions are encoded once, by [train]: after
    [__init__] and [train] the one recorded call of [encode] is the call of
    [train] on the descriptions.  [predict] writes no field: after any
    call of [predict], returning or raising, [self] (its labels, label
    embeddings, threshold, null label and model) and the global [model]
    are as they were, and the only call of [encode] it can add is
    [self.model.encode(input_texts)], when no input embeddings are given. *)
Theorem predict_leaves_classifier_unchanged :
  (forall (gm : Model) (m : option Model) (t : option Q) (n : string)
          (ls ds : list string),
      let nb :=
        leaves (train ls ds) (mkNotebook (Some gm) (__init__ m t n) []) in
      self nb = mkZeroShotClassifier
                  m ls (Some (map (sentence_embedding gm) ds)) t n /\
      encode_log nb = [(gm, Some ds)]) /\
  (forall (nb : Notebook) input_texts input_embeddings
          (output_scores : bool),
      let nb' := leaves (predict input_texts input_embeddings output_scores)
                        nb in
      self nb' = self nb /\
      global_model nb' = global_model nb /\
      encode_log nb' =
        encode_log nb ++ predict_calls (self nb) input_texts input_embeddings).
Proof.
  split.
  - intros gm m t n ls ds. simpl. split; reflexivity.
  - intros nb input_texts input_embeddings output_scores.
    unfold leaves, predict, predict_calls, bind, get_self, lift, ret, raise,
      encode.
    destruct input_embeddings as [e|]; simpl.
    + destruct (label_embeddings (self nb)) as [embs|]; simpl.
      * destruct (predict_rows (self nb) _ _ [] []); simpl;
          rewrite app_nil_r; repeat split; reflexivity.
      * rewrite app_nil_r. repeat split; reflexivity.
    + destruct (model (self nb)) as [m|]; simpl.
      * destruct input_texts as [txt|]; simpl.
        -- destruct (label_embeddings (self nb)) as [embs|]; simpl.
           ++ destruct (predict_rows (self nb) _ _ [] []); simpl;
                repeat split; reflexivity.
           ++ repeat split; reflexivity.
        -- repeat split; reflexivity.
      * rewrite app_nil_r. repeat split; reflexivity.
Qed.

End ZeroShotClaims.

(* ================================================================= *)
(** * The claims about [read_dataset] *)

Lemma three_fields_split (line : string) :
  three_fields line = true ->
  exists id text label, split TAB (strip line) = [id; text; label].
Proof.
  unfold three_fields. intro H. apply Nat.eqb_eq in H.
  destruct (split TAB (strip line)) as [|a [|b [|c [|d l]]]];
    try discriminate H.
  now exists a, b, c.
Qed.

Lemma read_lines_cons (line : string) (lines : list string)
      (dataset : list Item) :
  read_lines (line :: lines) dataset =
  if three_fields line
  then read_lines lines (dataset ++ [item_of_line line])
  else Raise ValueError.
Proof.
  unfold three_fields, item_of_line. simpl.
  destruct (split TAB (strip line)) as [|a [|b [|c [|d l]]]]; reflexivity.
Qed.

Lemma read_lines_malformed (lines : list string) (line : string) :
  In line lines -> three_fields line = false ->
  forall dataset, read_lines lines dataset = Raise ValueError.
Proof.
  induction lines as [|l lines IH]; intros Hin Hbad dataset.
  - contradiction.
  - rewrite read_lines_cons. destruct Hin as [-> | Hin].
    + now rewrite Hbad.
    + destruct (three_fields l); [now apply IH | reflexivity].
Qed.

Lemma read_lines_well_formed (lines : list string) :
  forallb three_fields lines = true ->
  forall dataset,
    read_lines lines dataset = Ok (dataset ++ map item_of_line lines).
Proof.
  induction lines as [|l lines IH]; intros Hall dataset; simpl in Hall.
  - simpl. now rewrite app_nil_r.
  - apply andb_true_iff in Hall. destruct Hall as [Hl Hall].
    rewrite read_lines_cons, Hl, IH by exact Hall.
    now rewrite <- app_assoc.
Qed.

(** An empty file has no header line to skip; the dataset is empty. *)
Lemma read_dataset_empty_file (fs : FileSystem) (path : string) :
  fs path = Some EmptyString -> read_dataset fs path = Ok [].
Proof. intro H. unfold read_dataset, open. now rewrite H. Qed.

(** C6, as amended.  [read_dataset] handles no failure: when some line
    after the header, once stripped of the white space around it, does not
    split into exactly three fields on tab, the
    call raises the unpacking error ([ValueError]) and returns no dataset;
    the line is neither skipped nor repaired. *)
Theorem read_dataset_malformed_line_raises
        (fs : FileSystem) (path contents line : string) :
  fs path = Some contents ->
  In line (tl (readlines contents)) ->
  three_fields line = false ->
  read_dataset fs path = Raise ValueError.
Proof.
  intros Hf Hin Hbad. unfold read_dataset, open. rewrite Hf. simpl.
  eapply read_lines_malformed; eassumption.
Qed.

(** C10.  On a file with a header line whose other lines are well formed,
    [read_dataset] skips the first line and returns, in file order, one
    record per remaining line: the dict with the keys id, text and label,
    in that order, holding the three fields of the stripped line split on
    tab.  The list has one element less than the file has lines. *)
Theorem read_dataset_records
        (fs : FileSystem) (path contents : string) :
  fs path = Some contents ->
  readlines contents <> [] ->
  forallb three_fields (tl (readlines contents)) = true ->
  exists dataset,
    read_dataset fs path = Ok dataset /\
    S (List.length dataset) = List.length (readlines contents) /\
    forall i line,
      nth_error (readlines contents) (S i) = Some line ->
      exists id text label,
        split TAB (strip line) = [id; text; label] /\
        nth_error dataset i =
          Some [("id", id); ("text", text); ("label", label)].
Proof.
  intros Hf Hne Hall.
  exists (map item_of_line (tl (readlines contents))).
  split; [|split].
  - unfold read_dataset, open. rewrite Hf. simpl.
    now rewrite read_lines_well_formed.
  - rewrite length_map. destruct (readlines contents); [congruence | reflexivity].
  - intros i line Hi.
    destruct (readlines contents) as [|header lines]; [congruence|].
    simpl in *.
    assert (Hl : three_fields line = true).
    { rewrite forallb_forall in Hall. apply Hall.
      eapply nth_error_In; exact Hi. }
    destruct (three_fields_split line Hl) as (id & text & label & Hs).
    exists id, text, label. split; [exact Hs|].
    rewrite nth_error_map, Hi. simpl.
    unfold item_of_line. now rewrite Hs.
Qed.

(* ================================================================= *)
(** * Examples *)

(** ** Where the claims C2 and C5 go too far *)

(** C2 fails as stated: OTHER is a trained label of [events] and the null
    label.  On a row whose best label is OTHER, with similarity 1, [predict]
    returns the null label although 1 is not less than the threshold 0.3. *)
Lemma predict_null_label_above_threshold :
  null_label (self events) = "OTHER" /\
  threshold (self events) = Some 0.3%Q /\
  label_embeddings (self events) = Some [row 1 0; row (-1) 0] /\
  first_best (self events) [row 1 0; row (-1) 0] (row (-1) 0) 1 "OTHER" 1 /\
  returns (predict None (Some [row (-1) 0]) false) events
    = Ok (Labels ["OTHER"]) /\
  ~ (1 < 0.3)%Q.
Proof.
  repeat split.
  - exists (row (-1) 0). repeat split.
  - intros [|[|[|j]]] l' e' Hl He; simpl in Hl, He; try discriminate;
      injection He as <-; vm_compute; discriminate.
  - intros [|[|j]] l' e' Hj Hl He; simpl in Hl, He; try lia.
    injection He as <-. reflexivity.
  - vm_compute. discriminate.
Qed.

(** C5 fails as stated: on [events] the threshold fires on a row whose best
    similarity is 0, the label of the row is the null label, and the ranked
    list of that row has the null label OTHER in it. *)
Lemma ranked_list_with_null_label :
  null_label (self events) = "OTHER" /\
  threshold (self events) = Some 0.3%Q /\
  (0 < 0.3)%Q /\
  returns (predict None (Some [row 0 1]) true) events
    = Ok (LabelsAndScores ["OTHER"]
                          [[("EARTHQUAKE", 0%Q); ("OTHER", 0%Q)]]) /\
  In (null_label (self events))
     (map fst [("EARTHQUAKE", 0%Q); ("OTHER", 0%Q)]).
Proof.
  repeat split.
  simpl. right. left. reflexivity.
Qed.


(** C6 fails as stated: the line of [padded_file] after the header splits
    on tab into four fields, not three, yet [read_dataset] returns its
    record; stripped of the white space around it the line has three. *)
Lemma read_dataset_accepts_four_raw_fields :
  In padded_line (tl (readlines padded_file)) /\
  List.length (split TAB padded_line) = 4 /\
  List.length (split TAB (strip padded_line)) = 3 /\
  read_dataset (one_file padded_file) "test.tsv" =
    Ok [[("id", "7"); ("text", " a b "); ("label", "DIPLO")]].
Proof.
  repeat split. simpl. left. reflexivity.
Qed.

(** ** The theorems at work *)

Lemma predict_without_threshold_first_best_witness :
  exists out,
    returns (predict (Some ["floods"; "fire"]) None false)
            disasters_no_threshold = Ok out /\
    List.length (output_labels out) = 2 /\
    forall i x, nth_error [row 0 1; row (-1) 0] i = Some x ->
      exists k l s,
        nth_error (output_labels out) i = Some l /\
        first_best (self disasters_no_threshold)
                   [row 1 0; row (-1) 0; row 0 1] x k l s.
Proof.
  apply (predict_without_threshold_first_best
           disasters_no_threshold (Some ["floods"; "fire"]) None false
           [row 0 1; row (-1) 0] [row 1 0; row (-1) 0; row 0 1]).
  - reflexivity.
  - intros _. discriminate.
  - reflexivity.
  - reflexivity.
  - simpl. discriminate.
  - discriminate.
Defined.

Lemma predict_with_threshold_witness :
  exists out,
    returns (predict None (Some [row 0 1; row 0 (-1)]) false) disasters
      = Ok out /\
    List.length (output_labels out) = 2 /\
    forall i x, nth_error [row 0 1; row 0 (-1)] i = Some x ->
      exists k l s pred,
        nth_error (output_labels out) i = Some pred /\
        first_best (self disasters) [row 1 0; row (-1) 0; row 0 1] x k l s /\
        ((s < 0.3)%Q -> pred = "OTHER") /\
        (~ (s < 0.3)%Q -> pred = l) /\
        (pred = "OTHER" <-> (s < 0.3)%Q \/ l = "OTHER") /\
        (~ In "OTHER" ["EARTHQUAKE"; "WILDFIRE"; "FLOODS"] ->
         (pred = "OTHER" <-> (s < 0.3)%Q)).
Proof.
  apply (predict_with_threshold
           disasters None (Some [row 0 1; row 0 (-1)]) false
           [row 0 1; row 0 (-1)] [row 1 0; row (-1) 0; row 0 1] 0.3%Q).
  - reflexivity.
  - intro H. discriminate H.
  - reflexivity.
  - reflexivity.
  - simpl. discriminate.
  - discriminate.
Defined.

Lemma predict_threshold_monotone_witness :
  let c := mkZeroShotClassifier (Some the_model) ["EARTHQUAKE"; "FLOODS"]
             (Some [row 1 0; row 0 1]) (Some 0.3%Q) "OTHER" in
  let c' := mkZeroShotClassifier (Some the_model) ["EARTHQUAKE"; "FLOODS"]
              (Some [row 1 0; row 0 1]) (Some 0.5%Q) "OTHER" in
  exists out out',
    returns (predict None (Some [row 0 1; row (-1) 0]) false)
            (mkNotebook None c []) = Ok out /\
    returns (predict None (Some [row 0 1; row (-1) 0]) false)
            (mkNotebook None c' []) = Ok out' /\
    List.length (output_labels out) = 2 /\
    List.length (output_labels out') = 2 /\
    forall i l l',
      nth_error (output_labels out) i = Some l ->
      nth_error (output_labels out') i = Some l' ->
      (l = "OTHER" -> l' = "OTHER") /\
      (l <> "OTHER" -> l' <> "OTHER" -> l = l').
Proof.
  apply (predict_threshold_monotone
           (Some the_model) ["EARTHQUAKE"; "FLOODS"] [row 1 0; row 0 1]
           "OTHER" 0.3%Q 0.5%Q None None [] []
           None (Some [row 0 1; row (-1) 0]) false [row 0 1; row (-1) 0]).
  - unfold Qle. simpl. lia.
  - discriminate.
  - discriminate.
  - reflexivity.
  - intro H. discriminate H.
Defined.



Lemma predict_ranked_list_keeps_trained_labels_witness :
  exists preds scores,
    returns (predict None (Some [row 0 1]) true) events =
      Ok (LabelsAndScores preds scores) /\
    forall i x, nth_error [row 0 1] i = Some x ->
      exists k l s rest,
        nth_error scores i = Some ((l, s) :: rest) /\
        (l, s) :: rest =
          sorted snd true
                 (combine ["EARTHQUAKE"; "OTHER"]
                          (map (cos_sim x) [row 1 0; row (-1) 0])) /\
        first_best (self events) [row 1 0; row (-1) 0] x k l s /\
        (forall l' s', In (l', s') ((l, s) :: rest) ->
                       In l' ["EARTHQUAKE"; "OTHER"]) /\
        ((s < 0.3)%Q ->
         nth_error preds i = Some "OTHER" /\
         (l <> "OTHER" -> nth_error preds i <> Some l)).
Proof.
  apply (predict_ranked_list_keeps_trained_labels
           events None (Some [row 0 1]) [row 0 1] [row 1 0; row (-1) 0]
           0.3%Q).
  - reflexivity.
  - intro H. discriminate H.
  - reflexivity.
  - reflexivity.
  - simpl. discriminate.
  - discriminate.
Defined.


Lemma read_dataset_malformed_line_raises_witness :
  read_dataset (one_file bad_file) "test.tsv" = Raise ValueError.
Proof.
  apply (read_dataset_malformed_line_raises
           (one_file bad_file) "test.tsv" bad_file
           (tsv_line ["2"; "Talks resumed"])).
  - reflexivity.
  - vm_compute. right. left. reflexivity.
  - reflexivity.
Defined.

Lemma read_dataset_records_witness :
  exists dataset,
    read_dataset (one_file good_file) "test.tsv" = Ok dataset /\
    S (List.length dataset) = List.length (readlines good_file) /\
    forall i line,
      nth_error (readlines good_file) (S i) = Some line ->
      exists id text label,
        split TAB (strip line) = [id; text; label] /\
        nth_error dataset i =
          Some [("id", id); ("text", text); ("label", label)].
Proof.
  apply (read_dataset_records (one_file good_file) "test.tsv" good_file).
  - reflexivity.
  - vm_compute. discriminate.
  - reflexivity.
Defined.

(* ================================================================= *)
(** * Further properties of [read_dataset] and of the data cells *)

(** ** [strip] and [split] *)

Lemma split_nonempty (sep : ascii) (s : string) : split sep s <> [].
Proof.
  destruct s as [|c r]; simpl; [discriminate|].
  destruct (Ascii.eqb c sep); [discriminate|].
  destruct (split sep r); discriminate.
Qed.

Lemma concat_split (sep : ascii) (s : string) :
  String.concat (String sep EmptyString) (split sep s) = s.
Proof.
  induction s as [|c r IH]; simpl; [reflexivity|].
  destruct (Ascii.eqb c sep) eqn:E.
  - apply Ascii.eqb_eq in E. subst c.
    destruct (split sep r) as [|f fs] eqn:S.
    + now apply split_nonempty in S.
    + change (String.concat (String sep EmptyString) (EmptyString :: f :: fs))
        with (String sep (String.concat (String sep EmptyString) (f :: fs))).
      now rewrite IH.
  - destruct (split sep r) as [|f [|g fs]] eqn:S; simpl in *.
    + now rewrite <- IH.
    + now rewrite IH.
    + now rewrite IH.
Qed.

Lemma split_no_sep (sep : ascii) (s : string) :
  Forall (fun f => occurs sep f = false) (split sep s).
Proof.
  induction s as [|c r IH]; simpl.
  - constructor; [reflexivity | constructor].
  - destruct (Ascii.eqb c sep) eqn:E.
    + constructor; [reflexivity | exact IH].
    + destruct (split sep r) as [|f fs].
      * constructor; [simpl; now rewrite E | constructor].
      * inversion IH as [|? ? Hf Hfs]; subst.
        constructor; [simpl; now rewrite E | exact Hfs].
Qed.

Lemma lstrip_head (s : string) (c : ascii) (r : string) :
  lstrip s = String c r -> isspace c = false.
Proof.
  induction s as [|c' r' IH]; simpl; [discriminate|].
  destruct (isspace c') eqn:E; [exact IH|].
  intro H. injection H as <- _. exact E.
Qed.

Lemma rstrip_keeps_head (c : ascii) (r : string) :
  isspace c = false -> exists r', rstrip (String c r) = String c r'.
Proof.
  intro E. simpl. destruct (rstrip r) as [|c' r'].
  - rewrite E. now exists EmptyString.
  - now exists (String c' r').
Qed.

Lemma rstrip_idempotent (s : string) : rstrip (rstrip s) = rstrip s.
Proof.
  induction s as [|c r IH]; simpl; [reflexivity|].
  destruct (rstrip r) as [|c' r'] eqn:E.
  - destruct (isspace c) eqn:Ec; simpl; [reflexivity|]. now rewrite Ec.
  - simpl. simpl in IH. rewrite IH. reflexivity.
Qed.

(** A stripped line starts with no white space and ends with none. *)
Lemma strip_head (s : string) (c : ascii) (r : string) :
  strip s = String c r -> isspace c = false.
Proof.
  unfold strip. destruct (lstrip s) as [|c' r'] eqn:E; simpl; [discriminate|].
  pose proof (lstrip_head _ _ _ E) as Hc.
  destruct (rstrip r') as [|c'' r''].
  - rewrite Hc. intro H. now injection H as <- _.
  - intro H. now injection H as <- _.
Qed.

Lemma rstrip_strip (s : string) : rstrip (strip s) = strip s.
Proof. unfold strip. apply rstrip_idempotent. Qed.

Lemma isspace_TAB : isspace TAB = true.
Proof. reflexivity. Qed.

(** The first field of a line that starts with no white space. *)
Lemma split_first_field (s : string) (f : string) (fs : list string) :
  (forall c r, s = String c r -> isspace c = false) ->
  split TAB s = f :: fs ->
  s = EmptyString \/ (f <> EmptyString /\ lstrip f = f).
Proof.
  intros Hs H. destruct s as [|c r]; [now left | right].
  pose proof (Hs c r eq_refl) as Hc. simpl in H.
  destruct (Ascii.eqb c TAB) eqn:E.
  - apply Ascii.eqb_eq in E. subst c. rewrite isspace_TAB in Hc. discriminate.
  - destruct (split TAB r) as [|g gs]; injection H as <- _;
      (split; [discriminate | simpl; now rewrite Hc]).
Qed.

(** The last field of a line that ends with no white space. *)
Lemma split_last_field (s : string) :
  s <> EmptyString -> rstrip s = s ->
  last (split TAB s) EmptyString <> EmptyString /\
  rstrip (last (split TAB s) EmptyString) = last (split TAB s) EmptyString.
Proof.
  induction s as [|c r IH]; intros Hne Hs; [congruence|].
  assert (Hr : (r = EmptyString /\ isspace c = false) \/
               (r <> EmptyString /\ rstrip r = r)).
  { simpl in Hs. destruct (rstrip r) as [|c' r'] eqn:E.
    - destruct (isspace c) eqn:Ec; [discriminate|].
      injection Hs as <-. now left.
    - injection Hs as Hs. right. split; [rewrite <- Hs; discriminate | exact Hs]. }
  simpl split. destruct (Ascii.eqb c TAB) eqn:E.
  - apply Ascii.eqb_eq in E. subst c.
    destruct Hr as [[_ Hc] | [Hr1 Hr2]].
    + rewrite isspace_TAB in Hc. discriminate.
    + destruct (IH Hr1 Hr2) as [H1 H2].
      destruct (split TAB r) as [|g gs] eqn:S; [now apply split_nonempty in S|].
      split; assumption.
  - destruct Hr as [[-> Hc] | [Hr1 Hr2]].
    + simpl. rewrite Hc. split; [discriminate | reflexivity].
    + destruct (IH Hr1 Hr2) as [H1 H2].
      destruct (split TAB r) as [|g [|h gs]] eqn:S.
      * now apply split_nonempty in S.
      * simpl in *. split; [discriminate|].
        rewrite H2. destruct g; [congruence | reflexivity].
      * split; assumption.
Qed.

(** ** What a returned dataset is made of *)

Lemma forallb_false_witness {A : Type} (f : A -> bool) (l : list A) :
  forallb f l = false -> exists x, In x l /\ f x = false.
Proof.
  induction l as [|a l IH]; simpl; [discriminate|].
  destruct (f a) eqn:E; simpl.
  - intro H. destruct (IH H) as (x & Hx & Hfx). exists x. split; [now right | exact Hfx].
  - intros _. exists a. split; [now left | exact E].
Qed.

Lemma read_dataset_ok_inv (fs : FileSystem) (path : string)
      (dataset : list Item) :
  read_dataset fs path = Ok dataset ->
  exists contents,
    fs path = Some contents /\
    forallb three_fields (tl (readlines contents)) = true /\
    dataset = map item_of_line (tl (readlines contents)).
Proof.
  unfold read_dataset, open. destruct (fs path) as [contents|]; simpl;
    [|discriminate].
  intro H. exists contents. split; [reflexivity|].
  destruct (forallb three_fields (tl (readlines contents))) eqn:E.
  - rewrite read_lines_well_formed in H by exact E.
    injection H as <-. now split.
  - apply forallb_false_witness in E. destruct E as (line & Hin & Hbad).
    rewrite (read_lines_malformed _ line Hin Hbad) in H. discriminate.
Qed.

Lemma item_of_line_fields (line : string) :
  three_fields line = true ->
  exists id text label,
    split TAB (strip line) = [id; text; label] /\
    item_of_line line = make_item id text label /\
    id <> EmptyString /\ label <> EmptyString /\
    lstrip id = id /\ rstrip label = label /\
    occurs TAB id = false /\ occurs TAB text = false /\
    occurs TAB label = false.
Proof.
  intro H. destruct (three_fields_split line H) as (id & text & label & Hs).
  exists id, text, label. split; [exact Hs|].
  split; [unfold item_of_line; now rewrite Hs|].
  assert (Hne : strip line <> EmptyString).
  { intro E. rewrite E in Hs. discriminate. }
  destruct (split_first_field (strip line) id [text; label]
              (strip_head line) Hs) as [E | [Hid1 Hid2]]; [contradiction|].
  destruct (split_last_field (strip line) Hne (rstrip_strip line))
    as [Hl1 Hl2].
  rewrite Hs in Hl1, Hl2. simpl in Hl1, Hl2.
  pose proof (split_no_sep TAB (strip line)) as Hsep. rewrite Hs in Hsep.
  inversion Hsep as [|? ? H1 Hsep1]; subst.
  inversion Hsep1 as [|? ? H2 Hsep2]; subst.
  inversion Hsep2 as [|? ? H3 _]; subst.
  repeat split; assumption.
Qed.

Lemma dataset_item_line (fs : FileSystem) (path : string)
      (dataset : list Item) (item : Item) :
  read_dataset fs path = Ok dataset ->
  In item dataset ->
  exists line, three_fields line = true /\ item = item_of_line line.
Proof.
  intros Hread Hin.
  destruct (read_dataset_ok_inv _ _ _ Hread) as (contents & _ & Hall & ->).
  apply in_map_iff in Hin. destruct Hin as (line & <- & Hline).
  rewrite forallb_forall in Hall.
  exists line. split; [exact (Hall line Hline) | reflexivity].
Qed.

(** Every record of a returned dataset is a dict with the keys id, text and
    label whose id and label are not empty, whose id starts with no white
    space, whose label ends with none, and whose three fields hold no tab. *)
Theorem read_dataset_record_shape
        (fs : FileSystem) (path : string) (dataset : list Item) (item : Item) :
  read_dataset fs path = Ok dataset ->
  In item dataset ->
  exists id text label,
    item = [("id", id); ("text", text); ("label", label)] /\
    id <> EmptyString /\ label <> EmptyString /\
    lstrip id = id /\ rstrip label = label /\
    occurs TAB id = false /\ occurs TAB text = false /\
    occurs TAB label = false.
Proof.
  intros Hread Hin.
  destruct (dataset_item_line _ _ _ _ Hread Hin) as (line & Hline & ->).
  destruct (item_of_line_fields line Hline)
    as (id & text & label & _ & Hitem & Hrest).
  exists id, text, label. split; [exact Hitem | exact Hrest].
Qed.

(** Joining the three fields of the record number [i] with tabs gives back
    the stripped line number [i + 1] of the file: nothing of the line is
    lost but the white space around it. *)
Theorem read_dataset_record_rebuilds_line
        (fs : FileSystem) (path contents : string) (dataset : list Item)
        (i : nat) (line id text label : string) :
  fs path = Some contents ->
  read_dataset fs path = Ok dataset ->
  nth_error (readlines contents) (S i) = Some line ->
  nth_error dataset i = Some [("id", id); ("text", text); ("label", label)] ->
  String.concat (String TAB EmptyString) [id; text; label] = strip line.
Proof.
  intros Hf Hread Hline Hitem.
  destruct (read_dataset_ok_inv _ _ _ Hread) as (contents' & Hf' & Hall & ->).
  rewrite Hf in Hf'. injection Hf' as <-.
  destruct (readlines contents) as [|header lines]; [discriminate|].
  simpl in Hline, Hall, Hitem.
  rewrite nth_error_map, Hline in Hitem. simpl in Hitem.
  rewrite forallb_forall in Hall.
  destruct (three_fields_split line (Hall line (nth_error_In _ _ Hline)))
    as (a & b & c & Hs).
  unfold item_of_line in Hitem. rewrite Hs in Hitem.
  injection Hitem as E1 E2 E3. subst.
  rewrite <- Hs. apply concat_split.
Qed.

Lemma comprehension_map {A B : Type} (f : A -> option B) (g : A -> B)
      (l : list A) :
  (forall x, In x l -> f x = Some (g x)) ->
  comprehension f l = Some (map g l).
Proof.
  induction l as [|x l IH]; intro H; simpl; [reflexivity|].
  rewrite (H x (or_introl eq_refl)), IH; [reflexivity|].
  intros y Hy. apply H. now right.
Qed.

(** On a returned dataset the two lookups [x["text"]] and [x["label"]] raise
    no [KeyError]: [texts] and [y_true] are lists as long as the dataset,
    and at every position they hold the text and the label of the record
    at that position. *)
Theorem texts_and_y_true_of_dataset
        (fs : FileSystem) (path : string) (dataset : list Item) :
  read_dataset fs path = Ok dataset ->
  exists ts ys,
    texts dataset = Some ts /\ y_true dataset = Some ys /\
    List.length ts = List.length dataset /\
    List.length ys = List.length dataset /\
    forall i id text label,
      nth_error dataset i =
        Some [("id", id); ("text", text); ("label", label)] ->
      nth_error ts i = Some text /\ nth_error ys i = Some label.
Proof.
  intro Hread.
  set (field := fun (k : string) (x : Item) =>
                  match getitem x k with Some v => v | None => EmptyString end).
  assert (Hkeys : forall x, In x dataset ->
            getitem x "text" = Some (field "text" x) /\
            getitem x "label" = Some (field "label" x)).
  { intros x Hx.
    destruct (dataset_item_line _ _ _ _ Hread Hx) as (line & Hline & ->).
    destruct (item_of_line_fields line Hline)
      as (id & text & label & _ & -> & _). now split. }
  exists (map (field "text") dataset), (map (field "label") dataset).
  split; [apply comprehension_map; intros x Hx; apply (Hkeys x Hx)|].
  split; [apply comprehension_map; intros x Hx; apply (Hkeys x Hx)|].
  split; [apply length_map|]. split; [apply length_map|].
  intros i id text label Hi. rewrite !nth_error_map, Hi. now split.
Qed.

(** ** The label names and their descriptions *)

Lemma insert_str_perm (x : string) (l : list string) :
  Permutation (x :: l) (insert_str x l).
Proof.
  induction l as [|y l IH]; simpl; [apply Permutation_refl|].
  destruct (String.ltb y x); [|apply Permutation_refl].
  eapply perm_trans; [apply perm_swap | now apply perm_skip].
Qed.

Lemma sorted_str_perm (l : list string) : Permutation l (sorted_str l).
Proof.
  induction l as [|x l IH]; simpl; [apply perm_nil|].
  eapply perm_trans; [apply perm_skip, IH | apply insert_str_perm].
Qed.

Lemma ltb_leb (x y : string) : String.ltb x y = true -> String.leb x y = true.
Proof.
  unfold String.ltb, String.leb.
  destruct (String.compare x y); [discriminate | reflexivity | discriminate].
Qed.

Lemma not_ltb_leb (x y : string) :
  String.ltb y x = false -> String.leb x y = true.
Proof.
  unfold String.ltb, String.leb. rewrite (String.compare_antisym x y).
  destruct (String.compare y x); simpl; [reflexivity | discriminate | reflexivity].
Qed.

Lemma insert_str_sorted (x : string) (l : list string) :
  Sorted (fun a b => String.leb a b = true) l ->
  Sorted (fun a b => String.leb a b = true) (insert_str x l).
Proof.
  induction 1 as [|y l Hl IH Hy]; simpl.
  - repeat constructor.
  - destruct (String.ltb y x) eqn:E.
    + constructor; [exact IH|].
      destruct l as [|z l]; simpl.
      * constructor. now apply ltb_leb.
      * destruct (String.ltb z x); constructor;
          [now inversion Hy | now apply ltb_leb].
    + constructor; [now constructor|]. constructor. now apply not_ltb_leb.
Qed.

Lemma sorted_str_sorted (l : list string) :
  Sorted (fun a b => String.leb a b = true) (sorted_str l).
Proof.
  induction l as [|x l IH]; simpl; [constructor | now apply insert_str_sorted].
Qed.

Lemma getitem_key (d : Dict) (k : string) :
  In k (map fst d) -> exists v, getitem d k = Some v /\ In (k, v) d.
Proof.
  induction d as [|[k' v'] d IH]; simpl; [contradiction|].
  intro H. destruct (String.eqb k' k) eqn:E.
  - apply String.eqb_eq in E. subst k'. exists v'. split; [reflexivity | now left].
  - destruct H as [H | H]; [subst; now rewrite String.eqb_refl in E|].
    destruct (IH H) as (v & Hv & Hin). exists v. split; [exact Hv | now right].
Qed.

(** The two lists the first notebook trains on.  For every label dictionary
    the lookups of [label_descriptions] raise no [KeyError]; [label_names]
    holds the keys of the dictionary, each once per entry, in ascending
    order; [label_descriptions] is as long as [label_names] and holds at
    every position the description the dictionary gives to the label at
    that position. *)
Theorem label_names_and_descriptions_aligned (d : Dict) :
  exists descs,
    label_descriptions d = Some descs /\
    List.length descs = List.length (label_names d) /\
    List.length (label_names d) = List.length d /\
    Permutation (label_names d) (map fst d) /\
    Sorted (fun a b => String.leb a b = true) (label_names d) /\
    forall i l, nth_error (label_names d) i = Some l ->
      exists desc,
        nth_error descs i = Some desc /\
        getitem d l = Some desc /\ In (l, desc) d.
Proof.
  set (value := fun k => match getitem d k with
                         | Some v => v
                         | None => EmptyString
                         end).
  assert (Hperm : Permutation (label_names d) (map fst d))
    by (apply Permutation_sym, sorted_str_perm).
  assert (Hget : forall k, In k (label_names d) ->
                           getitem d k = Some (value k) /\ In (k, value k) d).
  { intros k Hk. apply (Permutation_in _ Hperm) in Hk.
    destruct (getitem_key d k Hk) as (v & Hv & Hin).
    unfold value. rewrite Hv. now split. }
  exists (map value (label_names d)).
  split; [apply comprehension_map; intros k Hk; apply (Hget k Hk)|].
  split; [apply length_map|].
  split; [rewrite (Permutation_length Hperm); apply length_map|].
  split; [exact Hperm|]. split; [apply sorted_str_sorted|].
  intros i l Hi. exists (value l).
  split; [rewrite nth_error_map, Hi; reflexivity|].
  apply Hget. eapply nth_error_In; exact Hi.
Qed.

(** ** The zero-shot subset *)

Lemma str_in_iff (x : string) (l : list string) :
  str_in x l = true <-> In x l.
Proof.
  unfold str_in. rewrite existsb_exists. split.
  - intros (y & Hy & E). apply String.eqb_eq in E. now subst.
  - intro H. exists x. split; [exact H | apply String.eqb_refl].
Qed.

Lemma zero_shot_pairs_iff (ts ys zsl : list string) (t l : string) :
  In (t, l) (zero_shot_pairs ts ys zsl) <->
  In (t, l) (combine ts ys) /\ In l zsl.
Proof.
  unfold zero_shot_pairs. rewrite filter_In. simpl. now rewrite str_in_iff.
Qed.

Lemma snd_split_map {A B : Type} (l : list (A * B)) :
  snd (List.split l) = map snd l.
Proof.
  induction l as [|[a b] l IH]; simpl; [reflexivity|].
  destruct (List.split l). simpl in *. now rewrite IH.
Qed.

(** The cell that keeps the zero-shot labels raises [ValueError] exactly
    when no item of the dataset has one of the zero-shot labels: there is
    then nothing to unpack into the two names. *)
Theorem zero_shot_subset_raises_iff (ts ys zsl : list string) :
  zero_shot_subset ts ys zsl = Raise ValueError <->
  (forall t l, In (t, l) (combine ts ys) -> ~ In l zsl).
Proof.
  unfold zero_shot_subset.
  destruct (zero_shot_pairs ts ys zsl) as [|[t0 l0] ps] eqn:E; split.
  - intros _ t l Hin Hl.
    assert (H : In (t, l) (zero_shot_pairs ts ys zsl))
      by (apply zero_shot_pairs_iff; now split).
    rewrite E in H. exact H.
  - reflexivity.
  - discriminate.
  - intro H. exfalso.
    assert (H0 : In (t0, l0) (zero_shot_pairs ts ys zsl))
      by (rewrite E; now left).
    apply zero_shot_pairs_iff in H0. destruct H0 as [H1 H2].
    exact (H t0 l0 H1 H2).
Qed.

(** When some item has a zero-shot label, the cell gives two lists of the
    same length: zipped, they are the pairs (text, label) of the dataset
    whose label is a zero-shot label, in the order of the dataset; every
    kept label is a zero-shot label. *)
Theorem zero_shot_subset_keeps_pairs (ts ys zsl : list string) (t l : string) :
  In (t, l) (combine ts ys) -> In l zsl ->
  exists tz yz,
    zero_shot_subset ts ys zsl = Ok (tz, yz) /\
    List.length tz = List.length yz /\
    combine tz yz =
      filter (fun p => str_in (snd p) zsl) (combine ts ys) /\
    In (t, l) (combine tz yz) /\
    Forall (fun l' => In l' zsl) yz.
Proof.
  intros Hin Hl.
  assert (H : In (t, l) (zero_shot_pairs ts ys zsl))
    by (apply zero_shot_pairs_iff; now split).
  unfold zero_shot_subset.
  destruct (zero_shot_pairs ts ys zsl) as [|p ps] eqn:E; [contradiction|].
  rewrite <- E in *. clear E p ps.
  destruct (List.split (zero_shot_pairs ts ys zsl)) as [tz yz] eqn:S.
  exists tz, yz. split; [reflexivity|].
  pose proof (List.split_combine _ S) as Hc.
  split.
  { pose proof (List.length_fst_split (zero_shot_pairs ts ys zsl)) as H1.
    pose proof (List.length_snd_split (zero_shot_pairs ts ys zsl)) as H2.
    rewrite S in H1, H2. simpl in H1, H2. congruence. }
  split; [exact Hc|]. split; [now rewrite Hc|].
  pose proof (snd_split_map (zero_shot_pairs ts ys zsl)) as Hs.
  rewrite S in Hs. simpl in Hs. subst yz.
  apply Forall_forall. intros l' Hl'. apply in_map_iff in Hl'.
  destruct Hl' as ([t' l''] & <- & Hp). simpl.
  now apply zero_shot_pairs_iff in Hp.
Qed.

(* ================================================================= *)
(** * Further properties of [ZeroShotClassifier] *)

(** ** Ties in a ranked list *)

Lemma float_lt_not_both (a b v : Q) :
  float_lt a b = true -> Qeq_bool a v = true -> Qeq_bool b v = true -> False.
Proof.
  intros Hlt Ha Hb. apply float_lt_true in Hlt.
  apply Qeq_bool_iff in Ha. apply Qeq_bool_iff in Hb.
  rewrite Ha, Hb in Hlt. exact (Qlt_irrefl v Hlt).
Qed.

Lemma insert_stable_ties {A : Type} (key : A -> Q) (reverse : bool) (v : Q)
      (x : A) (l : list A) :
  filter (fun a => Qeq_bool (key a) v) (insert_stable key reverse x l) =
  filter (fun a => Qeq_bool (key a) v) (x :: l).
Proof.
  induction l as [|y l IH]; [reflexivity|].
  simpl insert_stable. destruct (overtakes key reverse y x) eqn:E;
    [|reflexivity].
  simpl filter. simpl filter in IH. rewrite IH.
  destruct (Qeq_bool (key x) v) eqn:Ex; [|reflexivity].
  destruct (Qeq_bool (key y) v) eqn:Ey; [|reflexivity].
  exfalso. unfold overtakes in E.
  destruct reverse; eapply float_lt_not_both; eassumption.
Qed.

Lemma sorted_ties {A : Type} (key : A -> Q) (reverse : bool) (v : Q)
      (l : list A) :
  filter (fun a => Qeq_bool (key a) v) (sorted key reverse l) =
  filter (fun a => Qeq_bool (key a) v) l.
Proof.
  induction l as [|x l IH]; [reflexivity|].
  simpl sorted. rewrite insert_stable_ties. simpl. now rewrite IH.
Qed.

Lemma combine_firstn_labels {A B : Type} (l1 : list A) (l2 : list B)
      (a : A) (b : B) :
  In (a, b) (combine l1 l2) -> In a (firstn (List.length l2) l1).
Proof.
  revert l2. induction l1 as [|x l1 IH]; intros [|y l2]; simpl;
    try contradiction.
  intros [H | H]; [injection H as -> _; now left | right; eapply IH; exact H].
Qed.

Section ZeroShotFurther.
Context {ST : SentenceTransformers}.

Lemma predict_rows_ext (c c' : ZeroShotClassifier) (S : list (list Q))
      (range : list nat) :
  labels c = labels c' -> threshold c = threshold c' ->
  null_label c = null_label c' ->
  forall pl ps, predict_rows c S range pl ps = predict_rows c' S range pl ps.
Proof.
  intros Hl Ht Hn. induction range as [|i range IH]; intros pl ps; simpl;
    [reflexivity|].
  rewrite Hl, Ht, Hn.
  destruct (sorted snd true (combine (labels c') (nth i S [])))
    as [|[pred score] rest]; [reflexivity | apply IH].
Qed.

(** When the global name [model] is not bound, [train] raises [NameError]
    after it has replaced [self.labels]: the classifier is left with the
    new labels and the label embeddings it had before, and no sentence was
    encoded. *)
Theorem train_without_global_model
        (nb : Notebook) (ls ds : list string) :
  global_model nb = None ->
  returns (train ls ds) nb = Raise NameError /\
  labels (self (leaves (train ls ds) nb)) = ls /\
  label_embeddings (self (leaves (train ls ds) nb)) =
    label_embeddings (self nb) /\
  model (self (leaves (train ls ds) nb)) = model (self nb) /\
  threshold (self (leaves (train ls ds) nb)) = threshold (self nb) /\
  null_label (self (leaves (train ls ds) nb)) = null_label (self nb) /\
  encode_log (leaves (train ls ds) nb) = encode_log nb.
Proof.
  intro Hg.
  unfold returns, leaves, train, bind, get_self, set_self, get_global_model.
  simpl. rewrite Hg. simpl. repeat split; reflexivity.
Qed.

(** With the global [model] bound, [train] returns and replaces the labels
    and the label embeddings only; training again replaces both again, so
    the classifier is as if trained once, on the last labels and
    descriptions, and both calls of [encode] are recorded in order. *)
Theorem train_again_replaces
        (nb : Notebook) (gm : Model) (ls1 ds1 ls2 ds2 : list string) :
  global_model nb = Some gm ->
  let nb1 := leaves (train ls1 ds1) nb in
  let nb2 := leaves (train ls2 ds2) nb1 in
  returns (train ls1 ds1) nb = Ok tt /\
  returns (train ls2 ds2) nb1 = Ok tt /\
  self nb2 = self (leaves (train ls2 ds2) nb) /\
  self nb2 = mkZeroShotClassifier
               (model (self nb)) ls2
               (Some (map (sentence_embedding gm) ds2))
               (threshold (self nb)) (null_label (self nb)) /\
  encode_log nb2 = encode_log nb ++ [(gm, Some ds1); (gm, Some ds2)].
Proof.
  intro Hg.
  unfold returns, leaves, train, bind, get_self, set_self, get_global_model,
    encode.
  simpl. rewrite Hg. simpl. rewrite <- app_assoc. repeat split; reflexivity.
Qed.

(** Given input embeddings, [predict] reads the labels, the label
    embeddings, the threshold and the null label only: the input texts,
    [self.model], the global [model] and the earlier calls do not change
    what it returns, and it encodes nothing. *)
Theorem predict_with_embeddings_reads_four_fields
        (nb nb' : Notebook) (texts texts' : option (list string))
        (e : list Embedding) (output_scores : bool) :
  labels (self nb) = labels (self nb') ->
  label_embeddings (self nb) = label_embeddings (self nb') ->
  threshold (self nb) = threshold (self nb') ->
  null_label (self nb) = null_label (self nb') ->
  returns (predict texts (Some e) output_scores) nb =
  returns (predict texts' (Some e) output_scores) nb' /\
  encode_log (leaves (predict texts (Some e) output_scores) nb) =
  encode_log nb.
Proof.
  intros Hl He Ht Hn.
  unfold returns, leaves, predict, bind, get_self, lift, ret. simpl.
  rewrite <- He. destruct (label_embeddings (self nb)) as [embs|]; simpl;
    [|now split].
  rewrite (predict_rows_ext (self nb) (self nb') _ _ Hl Ht Hn).
  destruct (predict_rows (self nb') _ _ [] []); simpl; now split.
Qed.

(** A classifier constructed without a model (the default [model=None])
    trains all the same, since [train] uses the global [model]; then
    [predict] on texts raises [AttributeError] and changes nothing. *)
Theorem predict_texts_without_own_model
        (gm : Model) (t : option Q) (n : string) (ls ds : list string)
        (log : list EncodeCall) (texts : option (list string))
        (output_scores : bool) :
  let nb := leaves (train ls ds)
                   (mkNotebook (Some gm) (__init__ None t n) log) in
  returns (train ls ds) (mkNotebook (Some gm) (__init__ None t n) log)
    = Ok tt /\
  returns (predict texts None output_scores) nb = Raise AttributeError /\
  leaves (predict texts None output_scores) nb = nb.
Proof. simpl. repeat split; reflexivity. Qed.

(** [predict] works row by row: on two batches put end to end it returns
    the labels of the first followed by the labels of the second, and the
    same for the ranked lists. *)
Theorem predict_batches_concatenate
        (nb : Notebook) (texts : option (list string))
        (rows1 rows2 embs : list Embedding) :
  label_embeddings (self nb) = Some embs ->
  labels (self nb) <> [] -> embs <> [] ->
  exists l1 s1 l2 s2,
    returns (predict texts (Some rows1) true) nb =
      Ok (LabelsAndScores l1 s1) /\
    returns (predict texts (Some rows2) true) nb =
      Ok (LabelsAndScores l2 s2) /\
    returns (predict texts (Some (rows1 ++ rows2)) true) nb =
      Ok (LabelsAndScores (l1 ++ l2) (s1 ++ s2)) /\
    returns (predict texts (Some (rows1 ++ rows2)) false) nb =
      Ok (Labels (l1 ++ l2)).
Proof.
  intros Hemb Hl He.
  exists (map (fun x => emitted (self nb) (ranking (self nb) embs x)) rows1),
         (map (ranking (self nb) embs) rows1),
         (map (fun x => emitted (self nb) (ranking (self nb) embs x)) rows2),
         (map (ranking (self nb) embs) rows2).
  rewrite <- !map_app.
  repeat split;
    exact (predict_returns nb texts (Some _) _ _ embs eq_refl Hemb
             (fun _ => conj Hl He)).
Qed.

(** Labels and label embeddings are paired by [zip]: when their numbers
    differ, every ranked list has as many entries as the shorter of the
    two, and a label beyond the number of embeddings is in no ranked list
    and is returned for no row (unless it is the null label).  Input texts, when
    they are what [predict] is given, are a non-empty list. *)
Theorem predict_pairs_labels_with_embeddings
        (nb : Notebook) input_texts input_embeddings
        (rows embs : list Embedding) :
  input_rows (self nb) input_texts input_embeddings = Some rows ->
  (input_embeddings = None -> rows <> []) ->
  label_embeddings (self nb) = Some embs ->
  labels (self nb) <> [] -> embs <> [] ->
  exists preds scores,
    returns (predict input_texts input_embeddings true) nb =
      Ok (LabelsAndScores preds scores) /\
    Forall (fun scored =>
              List.length scored =
                Nat.min (List.length (labels (self nb))) (List.length embs) /\
              forall l s, In (l, s) scored ->
                In l (firstn (List.length embs) (labels (self nb))))
           scores /\
    Forall (fun pred =>
              pred = null_label (self nb) \/
              In pred (firstn (List.length embs) (labels (self nb))))
           preds.
Proof.
  intros Hin _ Hemb Hl He.
  assert (Hrank : forall x l s,
            In (l, s) (ranking (self nb) embs x) ->
            In l (firstn (List.length embs) (labels (self nb)))).
  { intros x l s H.
    apply (Permutation_in _ (Permutation_sym (ranking_perm _ embs x))) in H.
    apply combine_firstn_labels in H. now rewrite length_map in H. }
  exists (map (fun x => emitted (self nb) (ranking (self nb) embs x)) rows),
         (map (ranking (self nb) embs) rows).
  split; [exact (predict_returns nb _ _ true rows embs Hin Hemb
                   (fun _ => conj Hl He))|].
  split.
  - apply Forall_forall. intros scored Hs. apply in_map_iff in Hs.
    destruct Hs as (x & <- & _). split.
    + unfold ranking. rewrite sorted_length, length_combine, length_map.
      reflexivity.
    + apply Hrank.
  - apply Forall_forall. intros pred Hp. apply in_map_iff in Hp.
    destruct Hp as (x & <- & _). unfold emitted.
    destruct (ranking (self nb) embs x) as [|[l s] rest] eqn:E; [now left|].
    destruct (fires (self nb) s); [now left | right].
    apply (Hrank x l s). rewrite E. now left.
Qed.

(** The ranking is stable: in the ranked list of a row, the labels of equal
    score stand in the order of the trained labels.  Input texts, when
    they are what [predict] is given, are a non-empty list. *)
Theorem predict_ranks_ties_in_trained_order
        (nb : Notebook) input_texts input_embeddings
        (rows embs : list Embedding) :
  input_rows (self nb) input_texts input_embeddings = Some rows ->
  (input_embeddings = None -> rows <> []) ->
  label_embeddings (self nb) = Some embs ->
  labels (self nb) <> [] -> embs <> [] ->
  exists preds scores,
    returns (predict input_texts input_embeddings true) nb =
      Ok (LabelsAndScores preds scores) /\
    forall i x, nth_error rows i = Some x ->
      exists scored,
        nth_error scores i = Some scored /\
        forall v, with_score v scored =
                  with_score v (combine (labels (self nb))
                                        (map (cos_sim x) embs)).
Proof.
  intros Hin _ Hemb Hl He.
  exists (map (fun x => emitted (self nb) (ranking (self nb) embs x)) rows),
         (map (ranking (self nb) embs) rows).
  split; [exact (predict_returns nb _ _ true rows embs Hin Hemb
                   (fun _ => conj Hl He))|].
  intros i x Hx. exists (ranking (self nb) embs x).
  split; [rewrite nth_error_map, Hx; reflexivity|].
  intro v. unfold with_score, ranking. apply sorted_ties.
Qed.

(** Without a threshold the two outputs agree: the label of every row is
    the label at the head of the ranked list of that row.  Input texts, when
    they are what [predict] is given, are a non-empty list. *)
Theorem predict_without_threshold_label_heads_ranking
        (nb : Notebook) input_texts input_embeddings
        (rows embs : list Embedding) :
  input_rows (self nb) input_texts input_embeddings = Some rows ->
  (input_embeddings = None -> rows <> []) ->
  label_embeddings (self nb) = Some embs ->
  threshold (self nb) = None ->
  labels (self nb) <> [] -> embs <> [] ->
  exists preds scores,
    returns (predict input_texts input_embeddings true) nb =
      Ok (LabelsAndScores preds scores) /\
    List.length preds = List.length scores /\
    forall i pred, nth_error preds i = Some pred ->
      exists s rest, nth_error scores i = Some ((pred, s) :: rest).
Proof.
  intros Hin _ Hemb Hthr Hl He.
  exists (map (fun x => emitted (self nb) (ranking (self nb) embs x)) rows),
         (map (ranking (self nb) embs) rows).
  split; [exact (predict_returns nb _ _ true rows embs Hin Hemb
                   (fun _ => conj Hl He))|].
  split; [now rewrite !length_map|].
  intros i pred Hi. rewrite nth_error_map in Hi. rewrite nth_error_map.
  destruct (nth_error rows i) as [x|]; [|discriminate].
  simpl in *. injection Hi as <-.
  destruct (ranking (self nb) embs x) as [|[l s] rest] eqn:E.
  - exfalso. revert E. now apply ranking_nonempty.
  - exists s, rest. unfold emitted, fires. rewrite Hthr. reflexivity.
Qed.

(** The ranked lists do not depend on the threshold, the null label or the
    model of the classifier: two classifiers with the same labels and label
    embeddings return the same ranked lists. *)
Theorem predict_scores_ignore_threshold
        (m1 m2 : option Model) (t1 t2 : option Q) (n1 n2 : string)
        (ls : list string) (embs rows : list Embedding)
        (g1 g2 : option Model) (log1 log2 : list EncodeCall) :
  ls <> [] -> embs <> [] ->
  exists preds1 preds2 scores,
    returns (predict None (Some rows) true)
            (mkNotebook g1 (mkZeroShotClassifier m1 ls (Some embs) t1 n1) log1)
      = Ok (LabelsAndScores preds1 scores) /\
    returns (predict None (Some rows) true)
            (mkNotebook g2 (mkZeroShotClassifier m2 ls (Some embs) t2 n2) log2)
      = Ok (LabelsAndScores preds2 scores) /\
    List.length scores = List.length rows.
Proof.
  intros Hl He.
  eexists. eexists. eexists.
  split; [exact (predict_returns
                   (mkNotebook g1 (mkZeroShotClassifier m1 ls (Some embs) t1 n1)
                               log1)
                   None (Some rows) true rows embs eq_refl eq_refl
                   (fun _ => conj Hl He))|].
  split; [exact (predict_returns
                   (mkNotebook g2 (mkZeroShotClassifier m2 ls (Some embs) t2 n2)
                               log2)
                   None (Some rows) true rows embs eq_refl eq_refl
                   (fun _ => conj Hl He))|].
  apply length_map.
Qed.

(** The whole path of the first notebook: from a dataset with at least one
    record that [read_dataset] returned, [texts] and [y_true] are defined and
    [predict(input_texts=texts)] on a trained classifier with a model of its
    own returns as many labels as [y_true] has, one per record. *)
Theorem predict_on_dataset_texts
        (fs : FileSystem) (path : string) (dataset : list Item)
        (nb : Notebook) (m : Model) (embs : list Embedding) :
  read_dataset fs path = Ok dataset ->
  dataset <> [] ->
  model (self nb) = Some m ->
  label_embeddings (self nb) = Some embs ->
  labels (self nb) <> [] -> embs <> [] ->
  exists ts ys preds,
    texts dataset = Some ts /\ y_true dataset = Some ys /\
    returns (predict (Some ts) None false) nb = Ok (Labels preds) /\
    List.length preds = List.length ys /\
    List.length ys = List.length dataset.
Proof.
  intros Hread _ Hm Hemb Hl He.
  set (field := fun (k : string) (x : Item) =>
                  match getitem x k with Some v => v | None => EmptyString end).
  assert (Hkeys : forall x, In x dataset ->
            getitem x "text" = Some (field "text" x) /\
            getitem x "label" = Some (field "label" x)).
  { intros x Hx.
    destruct (dataset_item_line _ _ _ _ Hread Hx) as (line & Hline & ->).
    destruct (item_of_line_fields line Hline)
      as (id & text & label & _ & -> & _). now split. }
  exists (map (field "text") dataset), (map (field "label") dataset).
  eexists.
  split; [apply comprehension_map; intros x Hx; apply (Hkeys x Hx)|].
  split; [apply comprehension_map; intros x Hx; apply (Hkeys x Hx)|].
  split.
  - apply (predict_returns nb (Some (map (field "text") dataset)) None false
             (map (sentence_embedding m) (map (field "text") dataset)) embs).
    + unfold input_rows. now rewrite Hm.
    + exact Hemb.
    + intros _. now split.
  - now rewrite !length_map.
Qed.

End ZeroShotFurther.

(* ================================================================= *)
(** * Further properties of the cells that feed the classifier *)

Lemma comprehension_none_iff {A B : Type} (f : A -> option B) (l : list A) :
  comprehension f l = None <-> exists x, In x l /\ f x = None.
Proof.
  induction l as [|a l IH]; simpl.
  - split; [discriminate | intros (x & [] & _)].
  - destruct (f a) as [b|] eqn:E.
    + destruct (comprehension f l) as [bs|].
      * split; [discriminate|].
        intros (x & [<- | Hx] & Hfx); [congruence|].
        assert (H : Some bs = None) by (apply (proj2 IH); now exists x).
        discriminate H.
      * split; [|reflexivity]. intros _.
        destruct (proj1 IH eq_refl) as (x & Hx & Hfx).
        exists x. split; [now right | exact Hfx].
    + split; [|reflexivity]. intros _. exists a. split; [now left | exact E].
Qed.

(** On any list of dicts, the cell [texts = [x["text"] for x in dataset]]
    raises [KeyError] exactly when some item has no key text, and the cell
    for [y_true] exactly when some item has no key label. *)
Theorem texts_and_y_true_raise_iff (dataset : list Dict) :
  (texts dataset = None <->
   exists x, In x dataset /\ getitem x "text" = None) /\
  (y_true dataset = None <->
   exists x, In x dataset /\ getitem x "label" = None).
Proof. split; apply comprehension_none_iff. Qed.

(** The first notebook trains on [label_names] and [label_descriptions].
    For every label dictionary that is not empty and every binding of the
    global [model], the trained classifier holds one embedding per label,
    its label list is not empty and holds the keys of the dictionary, and
    the embedding at a position is the one the global model gives to the
    description of the label at that position. *)
Theorem train_on_label_dictionary
        {ST : SentenceTransformers} (d : Dict) (gm : Model)
        (c : ZeroShotClassifier) (log : list EncodeCall) :
  d <> [] ->
  exists descs embs,
    label_descriptions d = Some descs /\
    returns (train (label_names d) descs) (mkNotebook (Some gm) c log)
      = Ok tt /\
    let nb := leaves (train (label_names d) descs)
                     (mkNotebook (Some gm) c log) in
    labels (self nb) = label_names d /\
    label_embeddings (self nb) = Some embs /\
    List.length embs = List.length (labels (self nb)) /\
    labels (self nb) <> [] /\
    Permutation (labels (self nb)) (map fst d) /\
    forall i l, nth_error (labels (self nb)) i = Some l ->
      exists desc,
        getitem d l = Some desc /\
        nth_error embs i = Some (sentence_embedding gm desc).
Proof.
  intro Hd.
  set (value := fun k => match getitem d k with
                         | Some v => v
                         | None => EmptyString
                         end).
  assert (Hperm : Permutation (label_names d) (map fst d))
    by (apply Permutation_sym, sorted_str_perm).
  assert (Hget : forall k, In k (label_names d) ->
                           getitem d k = Some (value k)).
  { intros k Hk. apply (Permutation_in _ Hperm) in Hk.
    destruct (getitem_key d k Hk) as (v & Hv & _).
    unfold value. now rewrite Hv. }
  exists (map value (label_names d)),
         (map (sentence_embedding gm) (map value (label_names d))).
  split; [apply comprehension_map; exact Hget|].
  split; [reflexivity|]. simpl.
  split; [reflexivity|]. split; [reflexivity|].
  split; [now rewrite !length_map|].
  split.
  { intro E. apply Hd. rewrite E in Hperm.
    apply Permutation_nil in Hperm. destruct d; [reflexivity | discriminate]. }
  split; [exact Hperm|].
  intros i l Hi. exists (value l).
  split; [apply Hget; eapply nth_error_In; exact Hi|].
  rewrite !nth_error_map, Hi. reflexivity.
Qed.

(* ================================================================= *)
(** * The further properties at work *)

Lemma read_dataset_record_shape_witness :
  exists id text label,
    make_item "2" "Talks resumed" "DIPLO" =
      [("id", id); ("text", text); ("label", label)] /\
    id <> EmptyString /\ label <> EmptyString /\
    lstrip id = id /\ rstrip label = label /\
    occurs TAB id = false /\ occurs TAB text = false /\
    occurs TAB label = false.
Proof.
  apply (read_dataset_record_shape (one_file good_file) "test.tsv"
           good_dataset (make_item "2" "Talks resumed" "DIPLO")).
  - reflexivity.
  - simpl. right. left. reflexivity.
Defined.

Lemma read_dataset_record_rebuilds_line_witness :
  String.concat (String TAB EmptyString) ["2"; "Talks resumed"; "DIPLO"] =
  strip (tsv_line ["2"; "Talks resumed"; "DIPLO"]).
Proof.
  apply (read_dataset_record_rebuilds_line
           (one_file good_file) "test.tsv" good_file good_dataset 1
           (tsv_line ["2"; "Talks resumed"; "DIPLO"])
           "2" "Talks resumed" "DIPLO").
  - reflexivity.
  - reflexivity.
  - reflexivity.
  - reflexivity.
Defined.

Lemma texts_and_y_true_of_dataset_witness :
  exists ts ys,
    texts good_dataset = Some ts /\ y_true good_dataset = Some ys /\
    List.length ts = List.length good_dataset /\
    List.length ys = List.length good_dataset /\
    forall i id text label,
      nth_error good_dataset i =
        Some [("id", id); ("text", text); ("label", label)] ->
      nth_error ts i = Some text /\ nth_error ys i = Some label.
Proof.
  apply (texts_and_y_true_of_dataset (one_file good_file) "test.tsv"
           good_dataset).
  reflexivity.
Defined.

Lemma zero_shot_subset_raises_iff_witness :
  zero_shot_subset ["Troops advance"] ["ARMED_CLASH"] zero_shot_labels =
  Raise ValueError.
Proof.
  apply (proj2 (zero_shot_subset_raises_iff
                  ["Troops advance"] ["ARMED_CLASH"] zero_shot_labels)).
  intros t l Hin Hl. simpl in Hin. destruct Hin as [Hin | []].
  injection Hin as <- <-. simpl in Hl.
  repeat (destruct Hl as [Hl | Hl]; [discriminate Hl|]). exact Hl.
Defined.

Lemma zero_shot_subset_keeps_pairs_witness :
  exists tz yz,
    zero_shot_subset ["Flood in the valley"; "Troops advance"; "Talks resumed"]
                     ["NATURAL_DISASTER"; "ARMED_CLASH"; "DIPLO"]
                     zero_shot_labels = Ok (tz, yz) /\
    List.length tz = List.length yz /\
    combine tz yz =
      filter (fun p => str_in (snd p) zero_shot_labels)
             (combine ["Flood in the valley"; "Troops advance"; "Talks resumed"]
                      ["NATURAL_DISASTER"; "ARMED_CLASH"; "DIPLO"]) /\
    In ("Talks resumed", "DIPLO") (combine tz yz) /\
    Forall (fun l' => In l' zero_shot_labels) yz.
Proof.
  apply (zero_shot_subset_keeps_pairs
           ["Flood in the valley"; "Troops advance"; "Talks resumed"]
           ["NATURAL_DISASTER"; "ARMED_CLASH"; "DIPLO"]
           zero_shot_labels "Talks resumed" "DIPLO").
  - simpl. right. right. left. reflexivity.
  - simpl. right. right. right. left. reflexivity.
Defined.

Lemma train_without_global_model_witness :
  returns (train ["FLOODS"] ["floods"])
          (mkNotebook None (self disasters) []) = Raise NameError /\
  labels (self (leaves (train ["FLOODS"] ["floods"])
                       (mkNotebook None (self disasters) []))) = ["FLOODS"] /\
  label_embeddings (self (leaves (train ["FLOODS"] ["floods"])
                                 (mkNotebook None (self disasters) []))) =
    Some [row 1 0; row (-1) 0; row 0 1].
Proof.
  destruct (train_without_global_model
              (mkNotebook None (self disasters) []) ["FLOODS"] ["floods"]
              eq_refl) as (H1 & H2 & H3 & _).
  split; [exact H1|]. split; [exact H2 | exact H3].
Defined.

Lemma train_again_replaces_witness :
  let nb := fresh_notebook (Some the_model)
              (__init__ (Some the_model) None "OTHER") in
  let nb1 := leaves (train ["EARTHQUAKE"; "OTHER"] ["earthquake"; "other"])
                    nb in
  let nb2 := leaves (train ["FLOODS"] ["floods"]) nb1 in
  returns (train ["EARTHQUAKE"; "OTHER"] ["earthquake"; "other"]) nb = Ok tt /\
  returns (train ["FLOODS"] ["floods"]) nb1 = Ok tt /\
  self nb2 = self (leaves (train ["FLOODS"] ["floods"]) nb) /\
  self nb2 = mkZeroShotClassifier
               (Some the_model) ["FLOODS"]
               (Some (map (sentence_embedding the_model) ["floods"]))
               None "OTHER" /\
  encode_log nb2 =
    [] ++ [(the_model, Some ["earthquake"; "other"]);
           (the_model, Some ["floods"])].
Proof.
  apply (train_again_replaces
           (fresh_notebook (Some the_model)
              (__init__ (Some the_model) None "OTHER"))
           the_model ["EARTHQUAKE"; "OTHER"] ["earthquake"; "other"]
           ["FLOODS"] ["floods"]).
  reflexivity.
Defined.

Lemma predict_with_embeddings_reads_four_fields_witness :
  returns (predict (Some ["floods"]) (Some [row 0 1]) true) disasters =
  returns (predict None (Some [row 0 1]) true)
          (mkNotebook None
             (mkZeroShotClassifier None ["EARTHQUAKE"; "WILDFIRE"; "FLOODS"]
                (Some [row 1 0; row (-1) 0; row 0 1]) (Some 0.3%Q) "OTHER")
             []) /\
  encode_log (leaves (predict (Some ["floods"]) (Some [row 0 1]) true)
                     disasters) =
  encode_log disasters.
Proof.
  apply (predict_with_embeddings_reads_four_fields
           disasters
           (mkNotebook None
              (mkZeroShotClassifier None ["EARTHQUAKE"; "WILDFIRE"; "FLOODS"]
                 (Some [row 1 0; row (-1) 0; row 0 1]) (Some 0.3%Q) "OTHER")
              [])
           (Some ["floods"]) None [row 0 1] true).
  - reflexivity.
  - reflexivity.
  - reflexivity.
  - reflexivity.
Defined.

Lemma predict_batches_concatenate_witness :
  exists l1 s1 l2 s2,
    returns (predict None (Some [row 0 1]) true) disasters =
      Ok (LabelsAndScores l1 s1) /\
    returns (predict None (Some [row 1 0; row 0 (-1)]) true) disasters =
      Ok (LabelsAndScores l2 s2) /\
    returns (predict None (Some ([row 0 1] ++ [row 1 0; row 0 (-1)])) true)
            disasters =
      Ok (LabelsAndScores (l1 ++ l2) (s1 ++ s2)) /\
    returns (predict None (Some ([row 0 1] ++ [row 1 0; row 0 (-1)])) false)
            disasters =
      Ok (Labels (l1 ++ l2)).
Proof.
  apply (predict_batches_concatenate
           disasters None [row 0 1] [row 1 0; row 0 (-1)]
           [row 1 0; row (-1) 0; row 0 1]).
  - reflexivity.
  - simpl. discriminate.
  - discriminate.
Defined.

Lemma predict_pairs_labels_with_embeddings_witness :
  exists preds scores,
    returns (predict None (Some [row (-1) 0]) true)
            three_labels_two_descriptions =
      Ok (LabelsAndScores preds scores) /\
    Forall (fun scored =>
              List.length scored = Nat.min 3 2 /\
              forall l s, In (l, s) scored ->
                In l (firstn 2 ["EARTHQUAKE"; "FLOODS"; "WILDFIRE"]))
           scores /\
    Forall (fun pred =>
              pred = "OTHER" \/
              In pred (firstn 2 ["EARTHQUAKE"; "FLOODS"; "WILDFIRE"]))
           preds.
Proof.
  apply (predict_pairs_labels_with_embeddings
           three_labels_two_descriptions None (Some [row (-1) 0])
           [row (-1) 0] [row 1 0; row 0 1]).
  - reflexivity.
  - intro H. discriminate H.
  - reflexivity.
  - simpl. discriminate.
  - discriminate.
Defined.

Lemma predict_ranks_ties_in_trained_order_witness :
  exists preds scores,
    returns (predict None (Some [row 0 (-1)]) true) disasters =
      Ok (LabelsAndScores preds scores) /\
    forall i x, nth_error [row 0 (-1)] i = Some x ->
      exists scored,
        nth_error scores i = Some scored /\
        forall v, with_score v scored =
                  with_score v (combine ["EARTHQUAKE"; "WILDFIRE"; "FLOODS"]
                                        (map (cos_sim x)
                                             [row 1 0; row (-1) 0; row 0 1])).
Proof.
  apply (predict_ranks_ties_in_trained_order
           disasters None (Some [row 0 (-1)]) [row 0 (-1)]
           [row 1 0; row (-1) 0; row 0 1]).
  - reflexivity.
  - intro H. discriminate H.
  - reflexivity.
  - simpl. discriminate.
  - discriminate.
Defined.

Lemma predict_without_threshold_label_heads_ranking_witness :
  exists preds scores,
    returns (predict (Some ["floods"; "fire"]) None true)
            disasters_no_threshold =
      Ok (LabelsAndScores preds scores) /\
    List.length preds = List.length scores /\
    forall i pred, nth_error preds i = Some pred ->
      exists s rest, nth_error scores i = Some ((pred, s) :: rest).
Proof.
  apply (predict_without_threshold_label_heads_ranking
           disasters_no_threshold (Some ["floods"; "fire"]) None
           [row 0 1; row (-1) 0] [row 1 0; row (-1) 0; row 0 1]).
  - reflexivity.
  - intros _. discriminate.
  - reflexivity.
  - reflexivity.
  - simpl. discriminate.
  - discriminate.
Defined.

Lemma predict_scores_ignore_threshold_witness :
  exists preds1 preds2 scores,
    returns (predict None (Some [row 0 (-1)]) true)
            (mkNotebook None
               (mkZeroShotClassifier None ["EARTHQUAKE"; "FLOODS"]
                  (Some [row 1 0; row 0 1]) None "OTHER") [])
      = Ok (LabelsAndScores preds1 scores) /\
    returns (predict None (Some [row 0 (-1)]) true)
            (mkNotebook (Some the_model)
               (mkZeroShotClassifier (Some the_model) ["EARTHQUAKE"; "FLOODS"]
                  (Some [row 1 0; row 0 1]) (Some 0.3%Q) "NONE") [])
      = Ok (LabelsAndScores preds2 scores) /\
    List.length scores = 1.
Proof.
  apply (predict_scores_ignore_threshold
           None (Some the_model) None (Some 0.3%Q) "OTHER" "NONE"
           ["EARTHQUAKE"; "FLOODS"] [row 1 0; row 0 1] [row 0 (-1)]
           None (Some the_model) [] []).
  - discriminate.
  - discriminate.
Defined.

Lemma predict_on_dataset_texts_witness :
  exists ts ys preds,
    texts good_dataset = Some ts /\ y_true good_dataset = Some ys /\
    returns (predict (Some ts) None false) disasters = Ok (Labels preds) /\
    List.length preds = List.length ys /\
    List.length ys = List.length good_dataset.
Proof.
  apply (predict_on_dataset_texts
           (one_file good_file) "test.tsv" good_dataset disasters the_model
           [row 1 0; row (-1) 0; row 0 1]).
  - reflexivity.
  - discriminate.
  - reflexivity.
  - reflexivity.
  - simpl. discriminate.
  - discriminate.
Defined.

Lemma texts_and_y_true_raise_iff_witness :
  texts [[("id", "1"); ("label", "DIPLO")]] = None.
Proof.
  apply (proj2 (proj1 (texts_and_y_true_raise_iff
                         [[("id", "1"); ("label", "DIPLO")]]))).
  exists [("id", "1"); ("label", "DIPLO")].
  split; [now left | reflexivity].
Defined.

Lemma train_on_label_dictionary_witness :
  let d := [("FLOODS", "floods"); ("EARTHQUAKE", "earthquake")] in
  let c := __init__ (Some the_model) None "OTHER" in
  exists descs embs,
    label_descriptions d = Some descs /\
    returns (train (label_names d) descs) (mkNotebook (Some the_model) c [])
      = Ok tt /\
    let nb := leaves (train (label_names d) descs)
                     (mkNotebook (Some the_model) c []) in
    labels (self nb) = label_names d /\
    label_embeddings (self nb) = Some embs /\
    List.length embs = List.length (labels (self nb)) /\
    labels (self nb) <> [] /\
    Permutation (labels (self nb)) (map fst d) /\
    forall i l, nth_error (labels (self nb)) i = Some l ->
      exists desc,
        getitem d l = Some desc /\
        nth_error embs i = Some (sentence_embedding the_model desc).
Proof.
  apply (train_on_label_dictionary
           (ST := plane)
           [("FLOODS", "floods"); ("EARTHQUAKE", "earthquake")]
           the_model (__init__ (Some the_model) None "OTHER") []).
  discriminate.
Defined.
